(** * proxy-server.js: the fund proxy's request router, forwarder and
      static resolver

    A shallow embedding of [src/proxy-server.js].  Each definition carries
    the name of the JavaScript function or expression it embeds.  JavaScript
    strings are sequences of UTF-16 code units; the Node.js built-ins the
    program calls ([String.prototype.split], [parseInt], [path.join],
    [path.extname], [url.parse], [http.ServerResponse]) are modelled after
    ECMA-262 and the Node.js (POSIX) documentation. *)

From Stdlib Require Import ZArith NArith String Ascii DecimalString Lia.
From stdpp Require Import base option list gmap.

Local Open Scope N_scope.

(** ** JavaScript strings *)

(** A JavaScript string: its UTF-16 code units. *)
Abbreviation jsstring := (list N).

(** A string literal of the source, all of whose characters are below
    U+0100. *)
Definition str (s : string) : jsstring :=
  N_of_ascii <$> list_ascii_of_string s.

Module Ch.
Definition slash : N := 47.
Definition dot : N := 46.
Definition colon : N := 58.
Definition hash : N := 35.
Definition question : N := 63.
Definition plus : N := 43.
Definition minus : N := 45.
Definition comma : N := 44.
Definition quote : N := 34.
Definition backslash : N := 92.
End Ch.

(** [s1 === s2] on strings. *)
Definition streq (s1 s2 : jsstring) : bool := bool_decide (s1 = s2).

(** [s.startsWith(p)] *)
Fixpoint startsWith (s p : jsstring) : bool :=
  match p, s with
  | [], _ => true
  | _ :: _, [] => false
  | a :: p', b :: s' => (a =? b) && startsWith s' p'
  end.

(** [s.split(sep)] for a separator of one code unit: never an empty array,
    [''.split('/')] is [['']]. *)
Fixpoint split (sep : N) (s : jsstring) : list jsstring :=
  match s with
  | [] => [[]]
  | c :: s' =>
      if c =? sep then [] :: split sep s'
      else match split sep s' with
           | [] => [[c]]
           | seg :: segs => (c :: seg) :: segs
           end
  end.

(** [a.join(sep)] *)
Fixpoint join (sep : jsstring) (a : list jsstring) : jsstring :=
  match a with
  | [] => []
  | [x] => x
  | x :: a' => x ++ sep ++ join sep a'
  end.

(** [a.pop()]: the removed last element ([None] is [undefined], on an empty
    array) and the array that is left. *)
Definition pop (a : list jsstring) : option jsstring * list jsstring :=
  (last a, removelast a).

(** Truthiness of a value that is a string or [undefined]. *)
Definition truthy (v : option jsstring) : bool :=
  match v with
  | Some (_ :: _) => true
  | _ => false
  end.

(** [a || b] on such values. *)
Definition or_else (a b : option jsstring) : option jsstring :=
  if truthy a then a else b.

(** [\d]: without the [u] flag, exactly the ASCII digits. *)
Definition isDigit (c : N) : bool := (48 <=? c) && (c <=? 57).

(** [/^\d{6}$/.test(s)]: no [m] flag, so [$] is the end of the input. *)
Definition test_6digits (s : jsstring) : bool :=
  (length s =? 6)%nat && forallb isDigit s.

(** [s.toLowerCase()] on the ASCII letters (header names and host names). *)
Definition toLowerCase (s : jsstring) : jsstring :=
  (fun c => if (65 <=? c) && (c <=? 90) then c + 32 else c) <$> s.

(** ** JavaScript numbers, as far as the router uses them *)

(** The Number values [parseInt] can return: [NaN], the infinities and the
    integer-valued doubles.  ([-0] is kept as [Fin 0]: the router only
    compares the value with [0] and clamps it.) *)
Inductive number :=
| NaN
| Infinity (negative : bool)
| Fin (z : Z).

(** The Number value for a mathematical integer, ECMA-262's 𝔽: round to
    the nearest double, ties to the even significand, and to an infinity
    from (2^53 - 1/2) * 2^971 on. *)
Definition F (z : Z) : number :=
  let a := Z.abs z in
  if (a <? 2 ^ 53)%Z then Fin z
  else
    let e := (Z.log2 a - 52)%Z in
    let q := Z.shiftr a e in
    let r := (a mod 2 ^ e)%Z in
    let half := (2 ^ (e - 1))%Z in
    let q' := if (half <? r)%Z || ((r =? half)%Z && Z.odd q) then (q + 1)%Z else q in
    let v := (q' * 2 ^ e)%Z in
    if (2 ^ 1024 <=? v)%Z then Infinity (z <? 0)%Z else Fin (Z.sgn z * v).

(** [Number.isFinite(n)] *)
Definition Number_isFinite (n : number) : bool :=
  match n with
  | Fin _ => true
  | _ => false
  end.

(** [a > b] *)
Definition gt (a b : number) : bool :=
  match a, b with
  | NaN, _ | _, NaN => false
  | Fin x, Fin y => (y <? x)%Z
  | Infinity false, Infinity false => false
  | Infinity false, _ => true
  | Infinity true, _ => false
  | Fin _, Infinity neg => neg
  end.

(** [Math.max(a, b)] *)
Definition Math_max (a b : number) : number :=
  match a, b with
  | NaN, _ | _, NaN => NaN
  | Infinity false, _ | _, Infinity false => Infinity false
  | Infinity true, x | x, Infinity true => x
  | Fin x, Fin y => Fin (Z.max x y)
  end.

(** [Math.min(a, b)] *)
Definition Math_min (a b : number) : number :=
  match a, b with
  | NaN, _ | _, NaN => NaN
  | Infinity true, _ | _, Infinity true => Infinity true
  | Infinity false, x | x, Infinity false => x
  | Fin x, Fin y => Fin (Z.min x y)
  end.

(** The decimal digits of an integer. *)
Definition decimal (z : Z) : jsstring :=
  str (NilZero.string_of_int (Z.to_int z)).

(** [`${n}`]: Number::toString.  Integers print in plain decimal below
    10^21 in magnitude (beyond, JavaScript switches to an exponent; the
    router never prints such a value). *)
Definition Number_toString (n : number) : jsstring :=
  match n with
  | NaN => str "NaN"
  | Infinity false => str "Infinity"
  | Infinity true => str "-Infinity"
  | Fin z => decimal z
  end.

(** StrWhiteSpaceChar: WhiteSpace and LineTerminator of ECMA-262. *)
Definition isWhiteSpace (c : N) : bool :=
  ((9 <=? c) && (c <=? 13)) || (c =? 32) || (c =? 160) || (c =? 0x1680)
  || ((0x2000 <=? c) && (c <=? 0x200A)) || (c =? 0x2028) || (c =? 0x2029)
  || (c =? 0x202F) || (c =? 0x205F) || (c =? 0x3000) || (c =? 0xFEFF).

Fixpoint trimStart (s : jsstring) : jsstring :=
  match s with
  | c :: s' => if isWhiteSpace c then trimStart s' else s
  | [] => []
  end.

(** The longest prefix of [s] whose code units satisfy [p]. *)
Fixpoint takeWhile (p : N -> bool) (s : jsstring) : jsstring :=
  match s with
  | c :: s' => if p c then c :: takeWhile p s' else []
  | [] => []
  end.

(** The integer a string of decimal digits denotes. *)
Definition mathInt (digits : jsstring) : Z :=
  fold_left (fun acc c => (10 * acc + Z.of_N (c - 48))%Z) digits 0%Z.

(** [parseInt(s, 10)] on a string: skip leading white space, read a sign,
    then the longest run of decimal digits; [NaN] when there is none. *)
Definition parseInt10 (s : jsstring) : number :=
  let s1 := trimStart s in
  let '(sign, s2) :=
    match s1 with
    | c :: rest =>
        if c =? Ch.minus then ((-1)%Z, rest)
        else if c =? Ch.plus then (1%Z, rest)
        else (1%Z, s1)
    | [] => (1%Z, [])
    end in
  match takeWhile isDigit s2 with
  | [] => NaN
  | digits => F (sign * mathInt digits)
  end.

(** A value of [parsedUrl.query]: a key that is absent reads [undefined],
    a key given once a string, a key given several times the array of its
    values. *)
Inductive queryValue :=
| QUndefined
| QString (s : jsstring)
| QArray (a : list jsstring).

(** ToString, which [parseInt] applies to its argument. *)
Definition ToString (v : queryValue) : jsstring :=
  match v with
  | QUndefined => str "undefined"
  | QString s => s
  | QArray a => join [Ch.comma] a
  end.

(** [parseInt(v, 10)] *)
Definition parseInt (v : queryValue) : number := parseInt10 (ToString v).

(** ** [path] (POSIX) *)

Module path.

(** What [normalizeString] does with one segment; the segments kept so
    far are held last first.  Empty segments and ['.'] vanish, ['..']
    removes the segment before it, or stays when there is none to remove
    and the path is relative. *)
Definition step (allowAboveRoot : bool) (kept : list jsstring) (seg : jsstring)
  : list jsstring :=
  if streq seg [] || streq seg (str ".") then kept
  else if streq seg (str "..") then
    match kept with
    | top :: below =>
        if streq top (str "..")
        then (if allowAboveRoot then seg :: kept else kept)
        else below
    | [] => if allowAboveRoot then [seg] else []
    end
  else seg :: kept.

Definition normalizeString (p : jsstring) (allowAboveRoot : bool) : jsstring :=
  join [Ch.slash] (rev (fold_left (step allowAboveRoot) (split Ch.slash p) [])).

(** [path.normalize(p)] *)
Definition normalize (p : jsstring) : jsstring :=
  match p with
  | [] => str "."
  | c :: _ =>
      let isAbsolute := c =? Ch.slash in
      let trailingSeparator := bool_decide (last p = Some Ch.slash) in
      let p' := normalizeString p (negb isAbsolute) in
      match p' with
      | [] =>
          if isAbsolute then str "/"
          else if trailingSeparator then str "./" else str "."
      | _ =>
          let p'' := if trailingSeparator then p' ++ [Ch.slash] else p' in
          if isAbsolute then Ch.slash :: p'' else p''
      end
  end.

(** [path.join(...args)]: the arguments that are not empty, joined by
    ['/'] and normalized. *)
Definition join (args : list jsstring) : jsstring :=
  match filter (λ a, a ≠ []) args with
  | [] => str "."
  | args' => normalize (join [Ch.slash] args')
  end.

(** The last component of [p], its code units last first; trailing
    slashes do not count. *)
Fixpoint dropWhile (f : N -> bool) (s : jsstring) : jsstring :=
  match s with
  | c :: s' => if f c then dropWhile f s' else s
  | [] => []
  end.

Definition rev_basename (p : jsstring) : jsstring :=
  takeWhile (λ c, negb (c =? Ch.slash))
            (dropWhile (λ c, c =? Ch.slash) (rev p)).

(** [path.extname(p)]: from the last ['.'] of the last component to its
    end; empty when that component has no ['.'], starts at its only
    ['.'], or is ['..']. *)
Definition extname (p : jsstring) : jsstring :=
  let rbase := rev_basename p in
  let rext := takeWhile (λ c, negb (c =? Ch.dot)) rbase in
  match drop (length rext) rbase with
  | [] => []                                   (* no dot *)
  | [_] => []                                  (* the dot comes first *)
  | _ :: _ :: _ =>
      if streq rbase (str "..") then []
      else Ch.dot :: rev rext
  end.

End path.

(** ** [url.parse] *)

Module url.

Record Url := {
  hostname : jsstring;
  port : option jsstring;
  path : jsstring
}.

Definition hostEnd (c : N) : bool :=
  (c =? Ch.slash) || (c =? Ch.question) || (c =? Ch.hash).

(** [url.parse(u)] on an absolute URL
    [scheme://host[:port][/path][?query][#fragment]] without user
    information, the shape of every URL the router builds: the host runs
    to the first ['/'], ['?'] or ['#'], a port is a final [:digits] of
    it, and [path] is the path name (['/'] when there is none) followed
    by the query. *)
Definition parse (u : jsstring) : Url :=
  let scheme := takeWhile (λ c, negb (c =? Ch.colon)) u in
  let rest0 := drop (S (length scheme)) u in
  let rest := if startsWith rest0 (str "//") then drop 2 rest0 else rest0 in
  let host := takeWhile (λ c, negb (hostEnd c)) rest in
  let rest' := drop (length host) rest in
  let rhost := rev host in
  let rport := takeWhile isDigit rhost in
  let '(hostname, port) :=
    match drop (length rport) rhost with
    | c :: rname =>
        if c =? Ch.colon
        then (rev rname, match rport with [] => None | _ => Some (rev rport) end)
        else (host, None)
    | [] => (host, None)
    end in
  let pathname := takeWhile (λ c, negb ((c =? Ch.question) || (c =? Ch.hash))) rest' in
  let search := takeWhile (λ c, negb (c =? Ch.hash)) (drop (length pathname) rest') in
  {| hostname := toLowerCase hostname;
     port := port;
     path := (match pathname with [] => str "/" | _ => pathname end) ++ search |}.

End url.

(** ** [JSON.stringify] *)

Module JSON.

Definition hexDigit (d : N) : N := if d <? 10 then 48 + d else 87 + d.

(** [\uXXXX], in lower-case hexadecimal. *)
Definition unicodeEscape (c : N) : jsstring :=
  [Ch.backslash; 117; hexDigit (c / 4096 mod 16); hexDigit (c / 256 mod 16);
   hexDigit (c / 16 mod 16); hexDigit (c mod 16)].

Definition isHighSurrogate (c : N) : bool := (0xD800 <=? c) && (c <=? 0xDBFF).
Definition isLowSurrogate (c : N) : bool := (0xDC00 <=? c) && (c <=? 0xDFFF).

(** One code unit that is not part of a surrogate pair. *)
Definition quoteUnit (c : N) : jsstring :=
  if c =? 8 then str "\b"
  else if c =? 9 then str "\t"
  else if c =? 10 then str "\n"
  else if c =? 12 then str "\f"
  else if c =? 13 then str "\r"
  else if c =? Ch.quote then [Ch.backslash; Ch.quote]
  else if c =? Ch.backslash then [Ch.backslash; Ch.backslash]
  else if (c <? 32) || isHighSurrogate c || isLowSurrogate c then unicodeEscape c
  else [c].

Fixpoint quoteBody (s : jsstring) : jsstring :=
  match s with
  | [] => []
  | c :: s' =>
      match s' with
      | d :: s'' =>
          if isHighSurrogate c && isLowSurrogate d
          then c :: d :: quoteBody s''
          else quoteUnit c ++ quoteBody s'
      | [] => quoteUnit c
      end
  end.

(** QuoteJSONString *)
Definition quoteString (s : jsstring) : jsstring :=
  Ch.quote :: quoteBody s ++ [Ch.quote].

(** [JSON.stringify(o)] for an object [o] whose properties, in order,
    are the pairs of [props], all with string values. *)
Fixpoint stringifyProps (props : list (jsstring * jsstring)) : jsstring :=
  match props with
  | [] => []
  | [(k, v)] => quoteString k ++ [Ch.colon] ++ quoteString v
  | (k, v) :: props' =>
      quoteString k ++ [Ch.colon] ++ quoteString v ++ [Ch.comma] ++ stringifyProps props'
  end.

Definition stringify (props : list (jsstring * jsstring)) : jsstring :=
  str "{" ++ stringifyProps props ++ str "}".

(** The value of a hexadecimal digit. *)
Definition hexValue (c : N) : option N :=
if (48 <=? c) && (c <=? 57) then Some (c - 48)
else if (97 <=? c) && (c <=? 102) then Some (c - 87)
else if (65 <=? c) && (c <=? 70) then Some (c - 55)
else None.

(** The code unit a one-letter escape stands for. *)
Definition unescape (e : N) : option N :=
if e =? 34 then Some 34
else if e =? 92 then Some 92
else if e =? 47 then Some 47
else if e =? 98 then Some 8
else if e =? 102 then Some 12
else if e =? 110 then Some 10
else if e =? 114 then Some 13
else if e =? 116 then Some 9
else None.

(** Reading a JSON string literal behind its opening quote, as
  [JSON.parse] does: the string it denotes and what follows its closing
  quote. *)
Fixpoint unquoteBody (s : jsstring) : option (jsstring * jsstring) :=
match s with
| [] => None
| c :: s' =>
    if c =? Ch.quote then Some ([], s')
    else if c =? Ch.backslash then
      match s' with
      | [] => None
      | e :: s'' =>
          if e =? 117 then
            match s'' with
            | h3 :: h2 :: h1 :: h0 :: s''' =>
                match hexValue h3, hexValue h2, hexValue h1, hexValue h0,
                      unquoteBody s''' with
                | Some a, Some b, Some c, Some d, Some (r, rest) =>
                    Some (4096 * a + 256 * b + 16 * c + d :: r, rest)
                | _, _, _, _, _ => None
                end
            | _ => None
            end
          else
            match unescape e, unquoteBody s'' with
            | Some u, Some (r, rest) => Some (u :: r, rest)
            | _, _ => None
            end
      end
    else if c <? 32 then None
    else
      match unquoteBody s' with
      | Some (r, rest) => Some (c :: r, rest)
      | None => None
      end
end.

(** Reading a JSON string literal. *)
Definition unquoteString (s : jsstring) : option (jsstring * jsstring) :=
match s with
| c :: s' => if c =? Ch.quote then unquoteBody s' else None
| [] => None
end.

End JSON.

(** ** The response object, the surroundings and their effects *)

(** What is written to a stream: a string or the bytes of a Buffer. *)
Inductive chunk :=
| Text (s : jsstring)
| Buffer (bytes : list N).

(** [http.ServerResponse], the [res] of a request.  [headersSent]: the
    status line and header are fixed, by [writeHead] or by the first write
    (Node.js's [res._header] is set); from then on [setHeader] and
    [writeHead] throw.  [headers]: the header fields by lower-cased name.
    [body]: what was written so far.  [finished]: [end] was called. *)
Record ServerResponse := {
  headersSent : bool;
  statusCode : Z;
  headers : gmap jsstring jsstring;
  body : list chunk;
  finished : bool
}.

(** [res] as the handler receives it. *)
Definition freshResponse : ServerResponse :=
  {| headersSent := false; statusCode := 200; headers := ∅; body := [];
     finished := false |}.

(** The [options] of [http.request] / [https.request]. *)
Record RequestOptions := {
  opt_hostname : jsstring;
  opt_port : jsstring + Z;
  opt_path : jsstring;
  opt_method : jsstring;
  opt_headers : list (jsstring * jsstring)
}.

(** What the handler does to the world besides writing to [res]. *)
Inductive effect :=
| ConsoleLog (line : jsstring)
| ConsoleError (label message : jsstring)
| FsAccess (p : jsstring)
| FsReadFile (p : jsstring)
| UpstreamRequest (secure : bool) (options : RequestOptions).

(** The errors Node.js throws at a misuse of [res]. *)
Inductive exn :=
| ERR_HTTP_HEADERS_SENT
| ERR_STREAM_WRITE_AFTER_END.

(** The file system under the server: whether [fs.access(p, F_OK)]
    succeeds, and what [fs.readFile(p)] yields ([None] is an error). *)
Record FileSystem := {
  fs_access : jsstring → bool;
  fs_readFile : jsstring → option (list N)
}.

(** The events of one upstream request, in the order they fire:
    ['response'] with the status and header fields of the upstream answer,
    ['data'] and ['end'] on that answer, ['error'] on the request. *)
Inductive upstreamEvent :=
| UResponse (status : Z) (hdrs : list (jsstring * jsstring))
| UData (bytes : list N)
| UEnd
| UError (message : jsstring).

(** The surroundings of one request: [__dirname] (in Node.js the absolute
    path of the script's directory, so never empty), the file system, the
    reading of the clock when the request arrives, and what the upstream
    request meets, should one be made. *)
Record Env := {
  dirname : jsstring;
  fs : FileSystem;
  now : jsstring;
  upstream : list upstreamEvent
}.

(** What a run has done so far: the state of [res] and the other
    effects, oldest first. *)
Record world := {
  res : ServerResponse;
  trace : list effect
}.

Definition initial : world := {| res := freshResponse; trace := [] |}.

(** A run ends normally, or with an exception no one catches: the
    handlers have no [try], so the exception ends the process. *)
Inductive outcome (A : Type) :=
| Done (a : A) (w : world)
| Uncaught (e : exn) (w : world).
Arguments Done {A} a w.
Arguments Uncaught {A} e w.

(** A piece of the program: from a world to an outcome. *)
Definition M (A : Type) : Type := world → outcome A.

#[global] Instance M_ret : MRet M := λ A a w, Done a w.
#[global] Instance M_bind : MBind M := λ A B f m w,
  match m w with
  | Done a w' => f a w'
  | Uncaught e w' => Uncaught e w'
  end.

Definition worldOf {A} (o : outcome A) : world :=
  match o with
  | Done _ w | Uncaught _ w => w
  end.

Definition emit (e : effect) : M unit :=
  λ w, Done () {| res := res w; trace := trace w ++ [e] |}.

Definition modifyRes (f : ServerResponse → ServerResponse) : M unit :=
  λ w, Done () {| res := f (res w); trace := trace w |}.

Definition throw {A} (e : exn) : M A := λ w, Uncaught e w.

Definition getRes : M ServerResponse := λ w, Done (res w) w.

(** [res.setHeader(name, value)]: refused once the header is sent. *)
Definition setHeader (name value : jsstring) : M unit :=
  r ← getRes;
  if headersSent r then throw ERR_HTTP_HEADERS_SENT
  else modifyRes (λ r,
    {| headersSent := false; statusCode := statusCode r;
       headers := <[toLowerCase name := value]> (headers r);
       body := body r; finished := finished r |}).

(** The fields of a header object added to those set before, a later one
    replacing an earlier one of the same name. *)
Definition mergeHeaders (obj : list (jsstring * jsstring))
    (h : gmap jsstring jsstring) : gmap jsstring jsstring :=
  foldl (λ m kv, <[toLowerCase kv.1 := kv.2]> m) h obj.

(** [res.writeHead(status, obj)]: fixes the status and the header;
    refused once the header is sent. *)
Definition writeHead (status : Z) (obj : list (jsstring * jsstring)) : M unit :=
  r ← getRes;
  if headersSent r then throw ERR_HTTP_HEADERS_SENT
  else modifyRes (λ r,
    {| headersSent := true; statusCode := status;
       headers := mergeHeaders obj (headers r);
       body := body r; finished := finished r |}).

(** [res.write(c)] *)
Definition write (c : chunk) : M unit :=
  r ← getRes;
  if finished r then throw ERR_STREAM_WRITE_AFTER_END
  else modifyRes (λ r,
    {| headersSent := true; statusCode := statusCode r; headers := headers r;
       body := body r ++ [c]; finished := false |}).

(** [res.end(c)] and [res.end()]; a second [end] does nothing. *)
Definition end_ (c : option chunk) : M unit :=
  modifyRes (λ r,
    if finished r then r
    else {| headersSent := true; statusCode := statusCode r; headers := headers r;
            body := body r ++ option_list c; finished := true |}).

(** ** The program *)

(** [PORT] *)
Definition PORT : Z := 9988.

(** [mimeTypes] *)
Definition mimeTypes : gmap jsstring jsstring :=
  list_to_map
    [ (str ".html", str "text/html");
      (str ".js", str "text/javascript");
      (str ".css", str "text/css");
      (str ".json", str "application/json");
      (str ".png", str "image/png");
      (str ".jpg", str "image/jpg");
      (str ".gif", str "image/gif");
      (str ".svg", str "image/svg+xml");
      (str ".wav", str "audio/wav");
      (str ".mp4", str "video/mp4");
      (str ".woff", str "application/font-woff");
      (str ".ttf", str "application/font-ttf");
      (str ".eot", str "application/vnd.ms-fontobject");
      (str ".otf", str "application/font-otf");
      (str ".wasm", str "application/wasm") ].

(** The four header fields [setCORSHeaders] sets. *)
Definition corsHeaders : list (jsstring * jsstring) :=
  [ (str "Access-Control-Allow-Origin", str "*");
    (str "Access-Control-Allow-Methods", str "GET, POST, PUT, DELETE, OPTIONS");
    (str "Access-Control-Allow-Headers",
     str "Content-Type, Authorization, X-Requested-With");
    (str "Access-Control-Allow-Credentials", str "true") ].

(** [setCORSHeaders(res)] *)
Definition setCORSHeaders : M unit :=
  setHeader (str "Access-Control-Allow-Origin") (str "*");;
  setHeader (str "Access-Control-Allow-Methods") (str "GET, POST, PUT, DELETE, OPTIONS");;
  setHeader (str "Access-Control-Allow-Headers")
            (str "Content-Type, Authorization, X-Requested-With");;
  setHeader (str "Access-Control-Allow-Credentials") (str "true").

(** An incoming request: [req.method], and [pathname] and [query.days] of
    [url.parse(req.url, true)]. *)
Record Request := {
  method : jsstring;
  pathname : jsstring;
  days : queryValue
}.

(** The header fields [proxyRequest] sends upstream. *)
Definition upstreamHeaders : list (jsstring * jsstring) :=
  [ (str "User-Agent",
     str "Mozilla/5.0 (Macintosh; Intel Mac OS X 10_15_7) AppleWebKit/537.36 (KHTML, like Gecko) Chrome/91.0.4472.124 Safari/537.36");
    (str "Referer", str "http://fund.eastmoney.com/");
    (str "Accept", str "*/*");
    (str "Accept-Language", str "zh-CN,zh;q=0.9,en;q=0.8");
    (str "Cache-Control", str "no-cache") ].

(** [url.parse(targetUrl).port || (targetUrl.startsWith('https') ? 443 : 80)] *)
Definition optionsPort (targetUrl : jsstring) : jsstring + Z :=
  match url.port (url.parse targetUrl) with
  | Some p => inl p
  | None => inr (if startsWith targetUrl (str "https") then 443 else 80)%Z
  end.

(** The [options] of [proxyRequest]. *)
Definition proxyOptions (req : Request) (targetUrl : jsstring) : RequestOptions :=
  {| opt_hostname := url.hostname (url.parse targetUrl);
     opt_port := optionsPort targetUrl;
     opt_path := url.path (url.parse targetUrl);
     opt_method := method req;
     opt_headers := upstreamHeaders |}.

(** [targetUrl.startsWith('https') ? https : http]; [true] is [https]. *)
Definition protocol (targetUrl : jsstring) : bool :=
  startsWith targetUrl (str "https").

(** '代理请求失败' *)
Definition proxyFailed : jsstring :=
  [0x4EE3; 0x7406; 0x8BF7; 0x6C42; 0x5931; 0x8D25].

(** '代理请求错误:' *)
Definition proxyErrorLabel : jsstring :=
  [0x4EE3; 0x7406; 0x8BF7; 0x6C42; 0x9519; 0x8BEF; 0x3A].

(** The callback of [protocol.request]: runs at ['response'].  After it,
    [proxyRes.pipe(res)] carries the upstream body to [res]. *)
Definition onResponse (status : Z) (hdrs : list (jsstring * jsstring)) : M unit :=
  setCORSHeaders;;
  writeHead status hdrs.

(** The listener of [proxyReq.on('error', ...)]. *)
Definition onError (message : jsstring) : M unit :=
  emit (ConsoleError proxyErrorLabel message);;
  setCORSHeaders;;
  writeHead 500 [(str "Content-Type", str "application/json")];;
  end_ (Some (Text (JSON.stringify [(str "error", proxyFailed);
                                    (str "message", message)]))).

(** The upstream events, handed one by one to the listeners
    [proxyRequest] has installed: the response callback, the pipe (which
    writes each chunk and ends [res] at ['end']), the error listener.
    Nothing follows ['end'] or ['error']. *)
Fixpoint deliver (piped : bool) (events : list upstreamEvent) : M unit :=
  match events with
  | [] => mret ()
  | UResponse status hdrs :: events' => onResponse status hdrs;; deliver true events'
  | UData bytes :: events' =>
      (if piped then write (Buffer bytes) else mret ());; deliver piped events'
  | UEnd :: _ => if piped then end_ None else mret ()
  | UError message :: _ => onError message
  end.

(** [proxyRequest(req, res, targetUrl)].  ([req.pipe(proxyReq)] hands the
    client's body to the upstream request and does not touch [res].) *)
Definition proxyRequest (env : Env) (req : Request) (targetUrl : jsstring) : M unit :=
  emit (UpstreamRequest (protocol targetUrl) (proxyOptions req targetUrl));;
  deliver false (upstream env).

(** The 404 answer of the static branches. *)
Definition notFound : M unit :=
  writeHead 404 [(str "Content-Type", str "text/plain")];;
  end_ (Some (Text (str "File not found"))).

(** [serveStaticFile(req, res, filePath)] *)
Definition serveStaticFile (env : Env) (filePath : jsstring) : M unit :=
  emit (FsReadFile filePath);;
  match fs_readFile (fs env) filePath with
  | None => notFound
  | Some data =>
      let ext := path.extname filePath in
      let mimeType := default (str "text/plain") (mimeTypes !! ext) in
      setCORSHeaders;;
      writeHead 200 [(str "Content-Type", mimeType)];;
      end_ (Some (Buffer data))
  end.

(** The fund code of the history route: [segments.pop() || segments.pop()]
    on [pathname.split('/')]. *)
Definition historyFundCode (pathname : jsstring) : option jsstring :=
  let segments := split Ch.slash pathname in
  let '(last1, segments1) := pop segments in
  or_else last1 (pop segments1).1.

(** The fund code of the snapshot route: [pathname.split('/').pop()]. *)
Definition snapshotFundCode (pathname : jsstring) : option jsstring :=
  (pop (split Ch.slash pathname)).1.

(** [fundCode && /^\d{6}$/.test(fundCode)] *)
Definition validFundCode (fundCode : option jsstring) : bool :=
  truthy fundCode && test_6digits (default [] fundCode).

(** [pageSize] of the history route. *)
Definition pageSize (daysParam : queryValue) : number :=
  let days := parseInt daysParam in
  if Number_isFinite days && gt days (Fin 0)
  then Math_min (Math_max days (Fin 60)) (Fin 365)
  else Fin 120.

(** The [targetUrl] of the history route. *)
Definition historyUrl (fundCode : jsstring) (pageSize : number) : jsstring :=
  str "https://fundmobapi.eastmoney.com/FundMNewApi/FundMNHisNetList?"
  ++ str "FCODE=" ++ fundCode ++ str "&pageIndex=1&pageSize=" ++ Number_toString pageSize
  ++ str "&appType=ttjj&product=EFund&plat=Iphone&version=6.3.8&deviceid=00000000-0000-0000-0000-000000000000".

(** The [targetUrl] of the snapshot route. *)
Definition snapshotUrl (fundCode : jsstring) : jsstring :=
  str "https://fundgz.1234567.com.cn/js/" ++ fundCode ++ str ".js".

(** The two API branches of the request handler: the [targetUrl] with
    which the branch calls [proxyRequest] and returns, or [None] when the
    handler goes on to the static files. *)
Definition proxyTarget (req : Request) : option jsstring :=
  if startsWith (pathname req) (str "/api/fund/history/") then
    let fundCode := historyFundCode (pathname req) in
    if validFundCode fundCode
    then Some (historyUrl (default [] fundCode) (pageSize (days req)))
    else None
  else if startsWith (pathname req) (str "/api/fund/") then
    let fundCode := snapshotFundCode (pathname req) in
    if validFundCode fundCode
    then Some (snapshotUrl (default [] fundCode))
    else None
  else None.

(** [path.join(__dirname, pathname === '/' ? 'fund_calculator.html' : pathname)] *)
Definition resolve (env : Env) (pathname : jsstring) : jsstring :=
  path.join [dirname env;
             if streq pathname (str "/") then str "fund_calculator.html" else pathname].

(** The static branch of the request handler, from [fs.access] on. *)
Definition serveStatic (env : Env) (filePath : jsstring) : M unit :=
  emit (FsAccess filePath);;
  if fs_access (fs env) filePath then serveStaticFile env filePath
  else if negb (truthy (Some (path.extname filePath))) then
    let filePath' := filePath ++ str ".html" in
    emit (FsAccess filePath');;
    if fs_access (fs env) filePath' then serveStaticFile env filePath'
    else notFound
  else notFound.

(** The request handler of [http.createServer]. *)
Definition handler (env : Env) (req : Request) : M unit :=
  emit (ConsoleLog (now env ++ str " - " ++ method req ++ str " " ++ pathname req));;
  if streq (method req) (str "OPTIONS") then
    setCORSHeaders;;
    writeHead 200 [];;
    end_ None
  else
    match proxyTarget req with
    | Some targetUrl => proxyRequest env req targetUrl
    | None => serveStatic env (resolve env (pathname req))
    end.

(** One request served from a fresh response object. *)
Definition serve (env : Env) (req : Request) : outcome unit :=
  handler env req initial.

(** * Vocabulary of the properties *)

(** ** Reading the trace *)

(** The upstream requests made, in order. *)
Definition requests (t : list effect) : list (bool * RequestOptions) :=
  omap (λ e, match e with UpstreamRequest s o => Some (s, o) | _ => None end) t.

(** The paths handed to [fs.access], in order. *)
Definition accesses (t : list effect) : list jsstring :=
  omap (λ e, match e with FsAccess p => Some p | _ => None end) t.

(** The paths handed to [fs.readFile], in order. *)
Definition reads (t : list effect) : list jsstring :=
  omap (λ e, match e with FsReadFile p => Some p | _ => None end) t.

(** The path and query of a history target. *)
Definition historyPath (c : jsstring) (n : Z) : jsstring :=
  str "/FundMNewApi/FundMNHisNetList?FCODE=" ++ c
  ++ str "&pageIndex=1&pageSize=" ++ decimal n
  ++ str "&appType=ttjj&product=EFund&plat=Iphone&version=6.3.8&deviceid=00000000-0000-0000-0000-000000000000".

(** [m] leaves the trace as it is. *)
Definition quiet {A} (m : M A) : Prop :=
  ∀ w, trace (worldOf (m w)) = trace w.

(** [m] makes no upstream request. *)
Definition silent {A} (m : M A) : Prop :=
  ∀ w, requests (trace (worldOf (m w))) = requests (trace w).

(** Following the spec: 120 when [days] is absent, not finite or not
    positive, and otherwise [days] clamped to the range from 60 to 365. *)
Definition specPageSize (daysParam : queryValue) : Z :=
  match daysParam with
  | QUndefined => 120
  | _ =>
      match parseInt daysParam with
      | Fin d => if (d <=? 0)%Z then 120 else Z.min (Z.max d 60) 365
      | NaN | Infinity _ => 120
      end
  end%Z.

(** ** Examples to run the theorems on *)

Module Example.

(** A document root that holds [fund_calculator.html] and [about.html]. *)
Definition files : FileSystem :=
  {| fs_access := λ p,
       streq p (str "/srv/jojo/fund_calculator.html")
       || streq p (str "/srv/jojo/about.html");
     fs_readFile := λ p,
       if streq p (str "/srv/jojo/fund_calculator.html") then Some (str "<html>calc</html>")
       else if streq p (str "/srv/jojo/about.html") then Some (str "<html>about</html>")
       else None |}.

(** An upstream that answers 200 with two chunks. *)
Definition answering : list upstreamEvent :=
  [UResponse 200 [(str "content-type", str "application/javascript")];
   UData (str "jsonpgz({"); UData (str "});"); UEnd].

(** An upstream that cannot be reached. *)
Definition unreachable : list upstreamEvent :=
  [UError (str "connect ECONNREFUSED 127.0.0.1:443")].

(** An upstream whose connection is reset after the first chunk. *)
Definition resetting : list upstreamEvent :=
  [UResponse 200 [(str "content-type", str "application/javascript")];
   UData (str "jsonpgz({"); UError (str "read ECONNRESET")].

Definition env (events : list upstreamEvent) : Env :=
  {| dirname := str "/srv/jojo"; fs := files;
     now := str "2024-01-01T00:00:00.000Z"; upstream := events |}.

Definition get (p : string) (d : queryValue) : Request :=
  {| method := str "GET"; pathname := str p; days := d |}.

End Example.

(** The four CORS header fields, by lower-cased name. *)
Definition corsFields : gmap jsstring jsstring :=
  list_to_map
    [ (str "access-control-allow-credentials", str "true");
      (str "access-control-allow-headers",
       str "Content-Type, Authorization, X-Requested-With");
      (str "access-control-allow-methods", str "GET, POST, PUT, DELETE, OPTIONS");
      (str "access-control-allow-origin", str "*") ].

(** The answer of the branches that find no file. *)
Definition notFoundResponse : ServerResponse :=
  {| headersSent := true; statusCode := 404;
     headers := {[ str "content-type" := str "text/plain" ]};
     body := [Text (str "File not found")]; finished := true |}.

(** The answer of [serveStaticFile] for a file it could read. *)
Definition fileResponse (mimeType : jsstring) (data : list N) : ServerResponse :=
  {| headersSent := true; statusCode := 200;
     headers := <[ str "content-type" := mimeType ]> corsFields;
     body := [Buffer data]; finished := true |}.

(** The content type [serveStaticFile] gives a file. *)
Definition mimeType (filePath : jsstring) : jsstring :=
  default (str "text/plain") (mimeTypes !! path.extname filePath).

(** A name without slash, other than ['.'] and ['..']. *)
Definition plainName (file : jsstring) : Prop :=
  file ≠ [] ∧ file ≠ str "." ∧ file ≠ str ".."
  ∧ forallb (λ c, negb (c =? Ch.slash)) file = true.

(** The lines written with [console.log], in order. *)
Definition logs (t : list effect) : list jsstring :=
  omap (λ e, match e with ConsoleLog line => Some line | _ => None end) t.

(** [m] only adds to the trace, and nothing written with [console.log]. *)
Definition logless {A} (m : M A) : Prop :=
  ∀ w, ∃ added, trace (worldOf (m w)) = trace w ++ added ∧ logs added = [].

Module Sample.

(** A document root [/srv/jojo] with a directory [assets], which exists
    but is no file to read, and a file [.html] in a directory [docs]; and
    a file outside the root. *)
Definition files : FileSystem :=
  {| fs_access := λ p,
       streq p (str "/srv/jojo/assets") || streq p (str "/srv/jojo/docs/.html")
       || streq p (str "/etc/hostname");
     fs_readFile := λ p,
       if streq p (str "/srv/jojo/docs/.html") then Some (str "<html>docs</html>")
       else if streq p (str "/etc/hostname") then Some (str "jojo")
       else None |}.

Definition env (events : list upstreamEvent) : Env :=
  {| dirname := str "/srv/jojo"; fs := files;
     now := str "2024-01-01T00:00:00.000Z"; upstream := events |}.

End Sample.

(** * Properties *)

(** ** Strings *)

(** Replace the literals of the goal by their code units. *)
Ltac literals :=
  repeat match goal with
         | |- context [str ?s] =>
             let v := eval vm_compute in (str s) in change (str s) with v
         end.

Lemma streq_true s1 s2 : streq s1 s2 = true ↔ s1 = s2.
Proof. unfold streq. apply bool_decide_eq_true. Qed.

Lemma streq_false s1 s2 : streq s1 s2 = false ↔ s1 ≠ s2.
Proof. unfold streq. apply bool_decide_eq_false. Qed.

Lemma split_not_nil sep s : split sep s ≠ [].
Proof.
  destruct s as [|c s]; simpl; [done|].
  destruct (c =? sep); [done|]. by destruct (split sep s).
Qed.

(** Splitting at a separator splits the list of segments. *)
Lemma split_app sep a b :
  split sep (a ++ sep :: b) = split sep a ++ split sep b.
Proof.
  induction a as [|c a IH]; simpl.
  - by rewrite N.eqb_refl.
  - rewrite IH. destruct (c =? sep); [done|].
    pose proof (split_not_nil sep a). by destruct (split sep a).
Qed.

Lemma split_no_sep sep s :
  forallb (λ c, negb (c =? sep)) s = true → split sep s = [s].
Proof.
  induction s as [|c s IH]; simpl; [done|].
  intros [Hc Hs]%andb_true_iff. apply negb_true_iff in Hc.
  by rewrite Hc, (IH Hs).
Qed.

Lemma isDigit_not c d : isDigit c = true → isDigit d = false → (c =? d) = false.
Proof. intros Hc Hd. apply N.eqb_neq. intros ->. congruence. Qed.

Lemma forallb_impl (p q : N → bool) s :
  (∀ c, p c = true → q c = true) → forallb p s = true → forallb q s = true.
Proof. intros Hpq. rewrite !forallb_forall. auto. Qed.

Lemma digits_no (d : N) s :
  isDigit d = false → forallb isDigit s = true →
  forallb (λ c, negb (c =? d)) s = true.
Proof.
  intros Hd. apply forallb_impl. intros c Hc.
  by rewrite (isDigit_not c d Hc Hd).
Qed.

Lemma test_6digits_digits s : test_6digits s = true → forallb isDigit s = true.
Proof. unfold test_6digits. by intros [_ ?]%andb_true_iff. Qed.

Lemma test_6digits_cons s :
  test_6digits s = true → ∃ c s', s = c :: s' ∧ isDigit c = true.
Proof.
  unfold test_6digits. intros [Hl Hd]%andb_true_iff.
  destruct s as [|c s']; [done|]. simpl in Hd.
  apply andb_true_iff in Hd as [Hc _]. eauto.
Qed.

Lemma takeWhile_app p a b :
  forallb p a = true → takeWhile p (a ++ b) = a ++ takeWhile p b.
Proof.
  induction a as [|c a IH]; simpl; [done|].
  intros [Hc Ha]%andb_true_iff. by rewrite Hc, (IH Ha).
Qed.

(** ** The fund code of a well-formed API path *)

Lemma snapshotFundCode_code c :
  test_6digits c = true → snapshotFundCode (str "/api/fund/" ++ c) = Some c.
Proof.
  intros Hc. unfold snapshotFundCode, pop. cbn [fst].
  change (str "/api/fund/" ++ c) with (str "/api/fund" ++ Ch.slash :: c).
  rewrite split_app, (split_no_sep _ c).
  - apply last_snoc.
  - apply digits_no; [done|]. by apply test_6digits_digits.
Qed.

Lemma historyFundCode_code c :
  test_6digits c = true → historyFundCode (str "/api/fund/history/" ++ c) = Some c.
Proof.
  intros Hc. unfold historyFundCode, pop.
  change (str "/api/fund/history/" ++ c) with (str "/api/fund/history" ++ Ch.slash :: c).
  rewrite split_app, (split_no_sep _ c).
  - rewrite last_snoc. destruct (test_6digits_cons c Hc) as (d & c' & -> & _). done.
  - apply digits_no; [done|]. by apply test_6digits_digits.
Qed.

Lemma startsWith_cons a p b s :
  startsWith (b :: s) (a :: p) = (a =? b) && startsWith s p.
Proof. reflexivity. Qed.

Lemma startsWith_app p s q : startsWith (p ++ s) (p ++ q) = startsWith s q.
Proof.
  induction p as [|a p IH]; [done|].
  cbn [app]. by rewrite startsWith_cons, N.eqb_refl, IH.
Qed.

Lemma startsWith_prefix' p s q : s = p ++ q → startsWith s p = true.
Proof.
  intros ->. rewrite <- (app_nil_r p) at 2. rewrite startsWith_app. by destruct q.
Qed.

Lemma startsWith_prefix p s : startsWith (p ++ s) p = true.
Proof.
  rewrite <- (app_nil_r p) at 2. rewrite startsWith_app. by destruct s.
Qed.

Lemma startsWith_history_code c :
  test_6digits c = true →
  startsWith (str "/api/fund/" ++ c) (str "/api/fund/history/") = false.
Proof.
  intros (d & c' & -> & Hd)%test_6digits_cons.
  change (str "/api/fund/history/") with (str "/api/fund/" ++ 104 :: str "istory/").
  rewrite startsWith_app, startsWith_cons.
  rewrite (N.eqb_sym 104 d), (isDigit_not d 104 Hd); done.
Qed.

Lemma validFundCode_code c : test_6digits c = true → validFundCode (Some c) = true.
Proof.
  intros Hc. unfold validFundCode. change (default [] (Some c)) with c. rewrite Hc.
  by destruct (test_6digits_cons c Hc) as (d & c' & -> & _).
Qed.

(** The target of the snapshot route. *)
Lemma proxyTarget_snapshot req c :
  pathname req = str "/api/fund/" ++ c → test_6digits c = true →
  proxyTarget req = Some (snapshotUrl c).
Proof.
  intros Hp Hc. unfold proxyTarget. rewrite Hp.
  rewrite (startsWith_history_code c Hc).
  rewrite startsWith_prefix.
  rewrite (snapshotFundCode_code c Hc), (validFundCode_code c Hc). done.
Qed.

(** The target of the history route. *)
Lemma proxyTarget_history req c :
  pathname req = str "/api/fund/history/" ++ c → test_6digits c = true →
  proxyTarget req = Some (historyUrl c (pageSize (days req))).
Proof.
  intros Hp Hc. unfold proxyTarget. rewrite Hp.
  rewrite startsWith_prefix.
  rewrite (historyFundCode_code c Hc), (validFundCode_code c Hc). done.
Qed.

Lemma takeWhile_all p s : forallb p s = true → takeWhile p s = s.
Proof.
  induction s as [|c s IH]; simpl; [done|].
  intros [Hc Hs]%andb_true_iff. by rewrite Hc, (IH Hs).
Qed.

(** ** The upstream URLs, as [url.parse] reads them *)

Lemma decimal_digits z : (0 <= z)%Z → forallb isDigit (decimal z) = true.
Proof.
  intros Hz. unfold decimal.
  assert (Hu : ∀ u, forallb isDigit (str (NilEmpty.string_of_uint u)) = true).
  { induction u; simpl; try done; by rewrite IHu. }
  destruct z as [|p|p]; [done| |lia].
  unfold Z.to_int, NilZero.string_of_int, NilZero.string_of_uint.
  destruct (Pos.to_uint p) eqn:E; try apply Hu. done.
Qed.

(** [url.parse] on [https://host/path] and [https://host/path?query]
    where the host has no port. *)
Lemma parse_https host p search :
  forallb (λ c, negb (url.hostEnd c) && negb (c =? Ch.colon)) host = true →
  forallb (λ c, negb ((c =? Ch.question) || (c =? Ch.hash))) p = true →
  forallb (λ c, negb (c =? Ch.hash)) search = true →
  head search = None ∨ head search = Some Ch.question →
  url.parse (str "https://" ++ host ++ Ch.slash :: p ++ search) =
  {| url.hostname := toLowerCase host; url.port := None;
     url.path := Ch.slash :: p ++ search |}.
Proof.
  intros Hh Hp Hq Hhd. unfold url.parse. cbv zeta.
  set (tail := Ch.slash :: p ++ search).
  assert (Hscheme : takeWhile (λ c, negb (c =? Ch.colon)) (str "https://" ++ host ++ tail)
                    = str "https") by reflexivity.
  rewrite Hscheme.
  change (drop (S (length (str "https"))) (str "https://" ++ host ++ tail))
    with (str "//" ++ host ++ tail).
  rewrite startsWith_prefix.
  change (drop 2 (str "//" ++ host ++ tail)) with (host ++ tail).
  assert (Hhost : takeWhile (λ c, negb (url.hostEnd c)) (host ++ tail) = host).
  { rewrite takeWhile_app; [by rewrite app_nil_r|].
    revert Hh. apply forallb_impl. by intros c [? _]%andb_true_iff. }
  rewrite Hhost, drop_app_length.
  assert (Hport : ∀ k, match drop k (rev host) with
                       | c :: rname =>
                           if c =? Ch.colon
                           then (rev rname,
                                 match takeWhile isDigit (rev host) with
                                 | [] => None
                                 | _ => Some (rev (takeWhile isDigit (rev host)))
                                 end)
                           else (host, None)
                       | [] => (host, None)
                       end = (host, None)).
  { intros k. destruct (drop k (rev host)) as [|c l] eqn:E; [done|].
    assert (Hin : In c host).
    { apply in_rev. apply list_elem_of_In.
      eapply (subseteq_drop k). rewrite E. left. }
    rewrite forallb_forall in Hh. apply Hh in Hin.
    apply andb_true_iff in Hin as [_ Hc]. apply negb_true_iff in Hc.
    by rewrite Hc. }
  rewrite Hport.
  assert (Hpath : takeWhile (λ c, negb ((c =? Ch.question) || (c =? Ch.hash))) tail
                  = Ch.slash :: p).
  { unfold tail. change (Ch.slash :: p ++ search) with ((Ch.slash :: p) ++ search).
    rewrite takeWhile_app by done.
    destruct search as [|c s]; [cbn; by rewrite app_nil_r|].
    destruct Hhd as [|[= ->]]; [done|].
    cbn. by rewrite app_nil_r. }
  rewrite Hpath.
  assert (Hsearch : drop (length (Ch.slash :: p)) tail = search).
  { unfold tail. change (Ch.slash :: p ++ search) with ((Ch.slash :: p) ++ search).
    apply drop_app_length. }
  rewrite Hsearch. by rewrite (takeWhile_all _ search).
Qed.

Lemma digits_forallb (f : N → bool) s :
  (∀ c, isDigit c = true → f c = true) →
  forallb isDigit s = true → forallb f s = true.
Proof. apply forallb_impl. Qed.

Lemma parse_snapshotUrl c :
  forallb isDigit c = true →
  url.parse (snapshotUrl c) =
  {| url.hostname := str "fundgz.1234567.com.cn"; url.port := None;
     url.path := str "/js/" ++ c ++ str ".js" |}.
Proof.
  intros Hc.
  pose proof (parse_https (str "fundgz.1234567.com.cn")
                (str "js/" ++ c ++ str ".js") []) as H.
  rewrite app_nil_r in H. apply H; [done| |done|by left].
  rewrite !forallb_app. repeat (apply andb_true_iff; split); try done.
  revert Hc. apply digits_forallb. intros d Hd.
  by rewrite (isDigit_not d Ch.question), (isDigit_not d Ch.hash).
Qed.

Lemma parse_historyUrl c n :
  forallb isDigit c = true → (0 <= n)%Z →
  url.parse (historyUrl c (Fin n)) =
  {| url.hostname := str "fundmobapi.eastmoney.com"; url.port := None;
     url.path := historyPath c n |}.
Proof.
  intros Hc Hn.
  pose proof (decimal_digits n Hn) as Hd.
  assert (Hno : ∀ s, forallb isDigit s = true →
                     forallb (λ c0, negb (c0 =? Ch.hash)) s = true).
  { intros s. apply digits_forallb. intros x Hx. by rewrite (isDigit_not x Ch.hash). }
  apply (parse_https (str "fundmobapi.eastmoney.com")
           (str "FundMNewApi/FundMNHisNetList")
           (str "?FCODE=" ++ c ++ str "&pageIndex=1&pageSize=" ++ decimal n
            ++ str "&appType=ttjj&product=EFund&plat=Iphone&version=6.3.8&deviceid=00000000-0000-0000-0000-000000000000"));
    [done|done| |by right].
  rewrite !forallb_app. repeat (apply andb_true_iff; split); auto.
Qed.

(** ** Running the handlers *)

Lemma bind_run {A B} (m : M A) (f : A → M B) w :
  (m ≫= f) w =
  match m w with
  | Done a w' => f a w'
  | Uncaught e w' => Uncaught e w'
  end.
Proof. reflexivity. Qed.

Lemma quiet_silent {A} (m : M A) : quiet m → silent m.
Proof. intros H w. by rewrite H. Qed.

Lemma quiet_bind {A B} (m : M A) (f : A → M B) :
  quiet m → (∀ a, quiet (f a)) → quiet (m ≫= f).
Proof.
  intros Hm Hf w. rewrite bind_run. specialize (Hm w).
  destruct (m w) as [a w'|e w']; simpl in *; [|done].
  by rewrite Hf.
Qed.

Lemma silent_bind {A B} (m : M A) (f : A → M B) :
  silent m → (∀ a, silent (f a)) → silent (m ≫= f).
Proof.
  intros Hm Hf w. rewrite bind_run. specialize (Hm w).
  destruct (m w) as [a w'|e w']; simpl in *; [|done].
  by rewrite Hf.
Qed.

Lemma quiet_ret {A} (a : A) : quiet (mret a).
Proof. done. Qed.

Lemma quiet_setHeader name value : quiet (setHeader name value).
Proof. intros w. unfold setHeader. rewrite bind_run. simpl. by destruct (headersSent _). Qed.

Lemma quiet_writeHead status obj : quiet (writeHead status obj).
Proof. intros w. unfold writeHead. rewrite bind_run. simpl. by destruct (headersSent _). Qed.

Lemma quiet_write c : quiet (write c).
Proof. intros w. unfold write. rewrite bind_run. simpl. by destruct (finished _). Qed.

Lemma quiet_end c : quiet (end_ c).
Proof. done. Qed.

(** Split a sequence of operations on [res] into its steps. *)
Ltac quiet_steps :=
  repeat first
    [ apply quiet_setHeader | apply quiet_writeHead | apply quiet_write
    | apply quiet_end | apply quiet_ret | apply quiet_bind; intros ].

Lemma quiet_setCORSHeaders : quiet setCORSHeaders.
Proof. unfold setCORSHeaders. quiet_steps. Qed.

Lemma quiet_notFound : quiet notFound.
Proof. unfold notFound. quiet_steps. Qed.

Lemma silent_emit e :
  (∀ s o, e ≠ UpstreamRequest s o) → silent (emit e).
Proof.
  intros He w. unfold requests. simpl. rewrite omap_app. simpl.
  destruct e; try by rewrite app_nil_r. by destruct (He secure options).
Qed.

Lemma silent_onResponse status hdrs : silent (onResponse status hdrs).
Proof.
  apply quiet_silent. unfold onResponse.
  apply quiet_bind; intros; [apply quiet_setCORSHeaders|apply quiet_writeHead].
Qed.

Lemma silent_onError message : silent (onError message).
Proof.
  unfold onError. apply silent_bind; intros; [by apply silent_emit|].
  apply quiet_silent.
  apply quiet_bind; intros; [apply quiet_setCORSHeaders|quiet_steps].
Qed.

(** Whatever the upstream does, the listeners make no further request:
    nothing is retried. *)
Lemma silent_deliver events : ∀ piped, silent (deliver piped events).
Proof.
  induction events as [|ev events IH]; intros piped; [done|].
  destruct ev; simpl.
  - apply silent_bind; intros; [apply silent_onResponse|apply IH].
  - apply silent_bind; intros; [|apply IH].
    destruct piped; apply quiet_silent; [apply quiet_write|apply quiet_ret].
  - destruct piped; apply quiet_silent; [apply quiet_end|apply quiet_ret].
  - apply silent_onError.
Qed.

(** A request that is not [OPTIONS] and has a proxy target is logged and
    handed to [proxyRequest]. *)
Lemma serve_proxy env req targetUrl :
  streq (method req) (str "OPTIONS") = false →
  proxyTarget req = Some targetUrl →
  serve env req =
  proxyRequest env req targetUrl
    {| res := freshResponse;
       trace := [ConsoleLog (now env ++ str " - " ++ method req ++ str " " ++ pathname req)] |}.
Proof.
  intros Hm Ht. unfold serve, handler. rewrite bind_run. simpl.
  by rewrite Hm, Ht.
Qed.

(** Such a request makes exactly one upstream request. *)
Lemma requests_proxy env req targetUrl :
  streq (method req) (str "OPTIONS") = false →
  proxyTarget req = Some targetUrl →
  requests (trace (worldOf (serve env req))) =
  [(protocol targetUrl, proxyOptions req targetUrl)].
Proof.
  intros Hm Ht. rewrite (serve_proxy env req targetUrl Hm Ht).
  unfold proxyRequest. rewrite bind_run. simpl.
  by rewrite silent_deliver.
Qed.

(** A request that is not [OPTIONS] and has no proxy target is logged and
    goes to the static files. *)
Lemma serve_static env req :
  streq (method req) (str "OPTIONS") = false →
  proxyTarget req = None →
  serve env req =
  serveStatic env (resolve env (pathname req))
    {| res := freshResponse;
       trace := [ConsoleLog (now env ++ str " - " ++ method req ++ str " " ++ pathname req)] |}.
Proof.
  intros Hm Ht. unfold serve, handler. rewrite bind_run. simpl.
  by rewrite Hm, Ht.
Qed.

(** ** The page size of the history route *)

Lemma pageSize_spec daysParam : pageSize daysParam = Fin (specPageSize daysParam).
Proof.
  unfold pageSize, specPageSize.
  destruct daysParam as [|s|a]; [done| |];
    (destruct (parseInt _) as [|neg|d]; [done|done|]; simpl;
     destruct (Z.ltb_spec 0 d), (Z.leb_spec d 0); try lia; done).
Qed.

Lemma specPageSize_range daysParam : (60 <= specPageSize daysParam <= 365)%Z.
Proof.
  unfold specPageSize.
  destruct daysParam; [lia| |]; (destruct (parseInt _); [lia|lia|]);
    destruct (_ <=? _)%Z; lia.
Qed.

(** [days=30] is raised to 60, [days=90] kept, [days=1000] lowered to 365;
    [days=0], [days=abc] and no [days] give 120, and so do 400 nines, which
    [parseInt] reads as [Infinity]. *)
Example pageSize_examples :
  pageSize (QString (str "30")) = Fin 60
  ∧ pageSize (QString (str "90")) = Fin 90
  ∧ pageSize (QString (str "1000")) = Fin 365
  ∧ pageSize (QString (str "0")) = Fin 120
  ∧ pageSize (QString (str "-5")) = Fin 120
  ∧ pageSize (QString (str "abc")) = Fin 120
  ∧ pageSize (QString (str " 77days")) = Fin 77
  ∧ pageSize (QArray [str "200"; str "5"]) = Fin 200
  ∧ pageSize QUndefined = Fin 120
  ∧ parseInt (QString (repeat 57 400)) = Infinity false
  ∧ pageSize (QString (repeat 57 400)) = Fin 120.
Proof. vm_compute. repeat split. Qed.

Lemma validFundCode_inv fundCode :
  validFundCode fundCode = true →
  ∃ c, fundCode = Some c ∧ test_6digits c = true.
Proof.
  unfold validFundCode. intros [Ht Hc]%andb_true_iff.
  destruct fundCode as [c|]; [|done]. eauto.
Qed.

(** What [proxyRequest] hands to [https.request] for a snapshot target. *)
Lemma proxyOptions_snapshot req c :
  test_6digits c = true →
  proxyOptions req (snapshotUrl c) =
  {| opt_hostname := str "fundgz.1234567.com.cn"; opt_port := inr 443%Z;
     opt_path := str "/js/" ++ c ++ str ".js"; opt_method := method req;
     opt_headers := upstreamHeaders |}.
Proof.
  intros Hc%test_6digits_digits. unfold proxyOptions, optionsPort.
  by rewrite (parse_snapshotUrl c Hc).
Qed.

(** What [proxyRequest] hands to [https.request] for a history target. *)
Lemma proxyOptions_history req c n :
  test_6digits c = true → (0 <= n)%Z →
  proxyOptions req (historyUrl c (Fin n)) =
  {| opt_hostname := str "fundmobapi.eastmoney.com"; opt_port := inr 443%Z;
     opt_path := historyPath c n; opt_method := method req;
     opt_headers := upstreamHeaders |}.
Proof.
  intros Hc%test_6digits_digits Hn. unfold proxyOptions, optionsPort.
  by rewrite (parse_historyUrl c n Hc Hn).
Qed.

(** ** The API routes *)

(** C1.  A request to the history route [/api/fund/history/{code}] with a
    6-digit code makes one upstream request, to the history endpoint, whose
    [pageSize] is 120 when [days] is absent, not finite or not positive,
    and otherwise [days] clamped to the range from 60 to 365. *)
Theorem history_pageSize env req c :
  streq (method req) (str "OPTIONS") = false →
  pathname req = str "/api/fund/history/" ++ c →
  test_6digits c = true →
  let size := specPageSize (days req) in
  pageSize (days req) = Fin size
  ∧ requests (trace (worldOf (serve env req))) =
    [(true,
      {| opt_hostname := str "fundmobapi.eastmoney.com"; opt_port := inr 443%Z;
         opt_path :=
           str "/FundMNewApi/FundMNHisNetList?FCODE=" ++ c
           ++ str "&pageIndex=1&pageSize=" ++ decimal size
           ++ str "&appType=ttjj&product=EFund&plat=Iphone&version=6.3.8&deviceid=00000000-0000-0000-0000-000000000000";
         opt_method := method req; opt_headers := upstreamHeaders |})]
  ∧ (days req = QUndefined → size = 120%Z)
  ∧ (Number_isFinite (parseInt (days req)) = false → size = 120%Z)
  ∧ (∀ d, parseInt (days req) = Fin d → (d <= 0)%Z → size = 120%Z)
  ∧ (∀ d, parseInt (days req) = Fin d → (0 < d)%Z →
       size = Z.min (Z.max d 60) 365).
Proof.
  intros Hm Hp Hc size.
  assert (Hsize : pageSize (days req) = Fin size) by apply pageSize_spec.
  split; [done|]. split.
  - rewrite (requests_proxy env req _ Hm (proxyTarget_history req c Hp Hc)).
    rewrite Hsize, proxyOptions_history;
      [done|done|pose proof (specPageSize_range (days req)); lia].
  - unfold size, specPageSize. repeat split.
    + by intros ->.
    + destruct (days req); [done| |]; by destruct (parseInt _).
    + intros d Hd Hle. destruct (days req); [done| |];
        rewrite Hd; destruct (Z.leb_spec d 0); done || lia.
    + intros d Hd Hlt. destruct (days req); [done| |];
        rewrite Hd; destruct (Z.leb_spec d 0); done || lia.
Qed.

Lemma history_pageSize_witness :
  requests (trace (worldOf (serve (Example.env Example.answering)
    (Example.get "/api/fund/history/161725" (QString (str "1000")))))) =
  [(true,
    {| opt_hostname := str "fundmobapi.eastmoney.com"; opt_port := inr 443%Z;
       opt_path :=
         str "/FundMNewApi/FundMNHisNetList?FCODE=161725&pageIndex=1&pageSize=365&appType=ttjj&product=EFund&plat=Iphone&version=6.3.8&deviceid=00000000-0000-0000-0000-000000000000";
       opt_method := str "GET"; opt_headers := upstreamHeaders |})].
Proof.
  apply (history_pageSize (Example.env Example.answering)
           (Example.get "/api/fund/history/161725" (QString (str "1000")))
           (str "161725")); reflexivity.
Defined.

(** C2.  A request to [/api/fund/{c}] with a 6-digit code [c] builds
    exactly the target [https://fundgz.1234567.com.cn/js/{c}.js] and hands
    the request to [proxyRequest] for it, which asks that host for
    [/js/{c}.js] over https. *)
Theorem snapshot_target env req c :
  streq (method req) (str "OPTIONS") = false →
  pathname req = str "/api/fund/" ++ c →
  test_6digits c = true →
  let targetUrl := str "https://fundgz.1234567.com.cn/js/" ++ c ++ str ".js" in
  proxyTarget req = Some targetUrl
  ∧ serve env req =
    proxyRequest env req targetUrl
      {| res := freshResponse;
         trace := [ConsoleLog (now env ++ str " - " ++ method req ++ str " " ++ pathname req)] |}
  ∧ requests (trace (worldOf (serve env req))) =
    [(true,
      {| opt_hostname := str "fundgz.1234567.com.cn"; opt_port := inr 443%Z;
         opt_path := str "/js/" ++ c ++ str ".js"; opt_method := method req;
         opt_headers := upstreamHeaders |})].
Proof.
  intros Hm Hp Hc targetUrl.
  pose proof (proxyTarget_snapshot req c Hp Hc) as Ht.
  split; [done|]. split.
  - by apply serve_proxy.
  - rewrite (requests_proxy env req _ Hm Ht).
    by rewrite (proxyOptions_snapshot req c Hc).
Qed.

Lemma snapshot_target_witness :
  proxyTarget (Example.get "/api/fund/161725" QUndefined) =
  Some (str "https://fundgz.1234567.com.cn/js/161725.js").
Proof.
  apply (snapshot_target (Example.env Example.answering)
           (Example.get "/api/fund/161725" QUndefined) (str "161725"));
    reflexivity.
Defined.

(** C10.  Every target the router builds starts with [https]: the
    forwarder takes [https] for it and, the target naming no port, the
    port 443; the [http] and port 80 alternatives are never taken. *)
Theorem target_https req targetUrl :
  proxyTarget req = Some targetUrl →
  startsWith targetUrl (str "https") = true
  ∧ protocol targetUrl = true
  ∧ url.port (url.parse targetUrl) = None
  ∧ optionsPort targetUrl = inr 443%Z.
Proof.
  unfold proxyTarget. intros Ht.
  destruct (startsWith (pathname req) (str "/api/fund/history/")).
  - destruct (validFundCode _) eqn:Hv; [|done].
    apply validFundCode_inv in Hv as (c & Hfc & Hc). rewrite Hfc in Ht.
    injection Ht as <-. change (default [] (Some c)) with c.
    rewrite pageSize_spec. pose proof (specPageSize_range (days req)) as Hr.
    apply test_6digits_digits in Hc.
    unfold optionsPort. rewrite (parse_historyUrl c _ Hc) by lia. done.
  - destruct (startsWith (pathname req) (str "/api/fund/")); [|done].
    destruct (validFundCode _) eqn:Hv; [|done].
    apply validFundCode_inv in Hv as (c & Hfc & Hc). rewrite Hfc in Ht.
    injection Ht as <-. change (default [] (Some c)) with c.
    apply test_6digits_digits in Hc.
    unfold optionsPort. rewrite (parse_snapshotUrl c Hc). done.
Qed.

Lemma target_https_witness :
  optionsPort
    (str "https://fundmobapi.eastmoney.com/FundMNewApi/FundMNHisNetList?FCODE=161725&pageIndex=1&pageSize=120&appType=ttjj&product=EFund&plat=Iphone&version=6.3.8&deviceid=00000000-0000-0000-0000-000000000000")
  = inr 443%Z.
Proof.
  apply (target_https (Example.get "/api/fund/history/161725" QUndefined)).
  reflexivity.
Defined.

(** ** The static branch makes no upstream request *)

Lemma silent_serveStaticFile env filePath : silent (serveStaticFile env filePath).
Proof.
  unfold serveStaticFile. apply silent_bind; intros; [by apply silent_emit|].
  apply quiet_silent. destruct (fs_readFile _ _); [|apply quiet_notFound].
  apply quiet_bind; intros; [apply quiet_setCORSHeaders|quiet_steps].
Qed.

Lemma silent_serveStatic env filePath : silent (serveStatic env filePath).
Proof.
  unfold serveStatic. apply silent_bind; intros; [by apply silent_emit|].
  destruct (fs_access _ _); [apply silent_serveStaticFile|].
  destruct (negb _); [|apply quiet_silent, quiet_notFound].
  apply silent_bind; intros; [by apply silent_emit|].
  destruct (fs_access _ _); [apply silent_serveStaticFile|].
  apply quiet_silent, quiet_notFound.
Qed.

Lemma validFundCode_false fundCode :
  (∀ s, fundCode = Some s → test_6digits s = false) →
  validFundCode fundCode = false.
Proof.
  intros H. unfold validFundCode. destruct fundCode as [s|]; [|done].
  change (default [] (Some s)) with s. rewrite (H s eq_refl). apply andb_false_r.
Qed.

(** C3, as the spec states it, fails on the history route: of
    [/api/fund/history/161725/] the trailing segment is empty, which does
    not match [^\d{6}$], and yet the request is proxied, because the
    handler then takes the segment before it. *)
Lemma history_trailing_slash_proxied :
  let req := Example.get "/api/fund/history/161725/" QUndefined in
  streq (method req) (str "OPTIONS") = false
  ∧ startsWith (pathname req) (str "/api/fund/history/") = true
  ∧ last (split Ch.slash (pathname req)) = Some []
  ∧ test_6digits [] = false
  ∧ proxyTarget req =
    Some (str "https://fundmobapi.eastmoney.com/FundMNewApi/FundMNHisNetList?FCODE=161725&pageIndex=1&pageSize=120&appType=ttjj&product=EFund&plat=Iphone&version=6.3.8&deviceid=00000000-0000-0000-0000-000000000000")
  ∧ length (requests (trace (worldOf (serve (Example.env Example.answering) req)))) = 1%nat.
Proof. vm_compute. repeat split. Qed.

(** C3, amended.  A request under [/api/fund/] whose fund code does not
    match [^\d{6}$] builds no proxy target, makes no upstream request and
    goes to the static files.  The fund code is the last segment of the
    path; on the history route, when the last segment is empty, it is the
    segment before it. *)
Theorem malformed_code_static env req :
  streq (method req) (str "OPTIONS") = false →
  startsWith (pathname req) (str "/api/fund/") = true →
  let segments := split Ch.slash (pathname req) in
  (∀ s, last segments = Some s → test_6digits s = false) →
  (startsWith (pathname req) (str "/api/fund/history/") = true →
   last segments = Some [] →
   ∀ s, last (removelast segments) = Some s → test_6digits s = false) →
  proxyTarget req = None
  ∧ serve env req =
    serveStatic env (resolve env (pathname req))
      {| res := freshResponse;
         trace := [ConsoleLog (now env ++ str " - " ++ method req ++ str " " ++ pathname req)] |}
  ∧ requests (trace (worldOf (serve env req))) = [].
Proof.
  intros Hm Hapi segments Hlast Hbefore.
  assert (Ht : proxyTarget req = None).
  { unfold proxyTarget. rewrite Hapi.
    destruct (startsWith (pathname req) (str "/api/fund/history/")) eqn:Hh.
    - rewrite validFundCode_false; [done|].
      unfold historyFundCode, pop. fold segments. cbn [fst].
      destruct (last segments) as [[|c s]|] eqn:El; unfold or_else; cbn [truthy].
      + intros s2 Hs2. by apply (Hbefore eq_refl eq_refl).
      + intros s2 [= <-]. by apply Hlast.
      + intros s2 Hs2. exfalso.
        pose proof (split_not_nil Ch.slash (pathname req)) as Hne. fold segments in Hne.
        by apply last_None in El.
    - rewrite validFundCode_false; [done|].
      unfold snapshotFundCode, pop. fold segments. cbn [fst]. done. }
  split; [done|]. split; [by apply serve_static|].
  rewrite (serve_static env req Hm Ht). by rewrite silent_serveStatic.
Qed.

Lemma malformed_code_static_witness :
  proxyTarget (Example.get "/api/fund/history/16172" QUndefined) = None
  ∧ proxyTarget (Example.get "/api/fund/161725/" QUndefined) = None.
Proof.
  split.
  - apply (malformed_code_static (Example.env Example.answering)
             (Example.get "/api/fund/history/16172" QUndefined));
      [reflexivity|reflexivity| |]; vm_compute; intros; simplify_eq; done.
  - apply (malformed_code_static (Example.env Example.answering)
             (Example.get "/api/fund/161725/" QUndefined));
      [reflexivity|reflexivity| |]; vm_compute; intros; simplify_eq; done.
Defined.

(** ** The responses *)

(** A response on which only [setCORSHeaders] has acted has exactly these
    fields. *)
Lemma corsFields_merge : mergeHeaders corsHeaders ∅ = corsFields.
Proof. reflexivity. Qed.

Lemma corsFields_lookup :
  corsFields !! str "access-control-allow-origin" = Some (str "*")
  ∧ corsFields !! str "access-control-allow-methods"
    = Some (str "GET, POST, PUT, DELETE, OPTIONS")
  ∧ corsFields !! str "access-control-allow-headers"
    = Some (str "Content-Type, Authorization, X-Requested-With")
  ∧ corsFields !! str "access-control-allow-credentials" = Some (str "true")
  ∧ size corsFields = 4%nat.
Proof. vm_compute. repeat split. Qed.

(** [setCORSHeaders] on a response whose header is not yet sent. *)
Lemma run_setCORSHeaders w :
  headersSent (res w) = false →
  setCORSHeaders w =
  Done () {| res := {| headersSent := false; statusCode := statusCode (res w);
                       headers := mergeHeaders corsHeaders (headers (res w));
                       body := body (res w); finished := finished (res w) |};
             trace := trace w |}.
Proof.
  intros H. unfold setCORSHeaders, setHeader. rewrite !bind_run. simpl.
  rewrite H. simpl. done.
Qed.

(** [setCORSHeaders] on a fresh response. *)
Lemma run_setCORSHeaders_fresh t :
  setCORSHeaders {| res := freshResponse; trace := t |} =
  Done () {| res := {| headersSent := false; statusCode := 200;
                       headers := corsFields; body := []; finished := false |};
             trace := t |}.
Proof.
  rewrite run_setCORSHeaders by done. cbn [res trace freshResponse headers
    statusCode body finished]. by rewrite corsFields_merge.
Qed.

(** [setCORSHeaders] on a response whose header is sent. *)
Lemma run_setCORSHeaders_sent w :
  headersSent (res w) = true →
  setCORSHeaders w = Uncaught ERR_HTTP_HEADERS_SENT w.
Proof.
  intros H. unfold setCORSHeaders, setHeader. rewrite !bind_run. simpl.
  by rewrite H.
Qed.

(** C4.  A request with method [OPTIONS] is answered, whatever its path,
    with status 200, the four CORS header fields and an empty body;
    nothing is proxied and no file is touched. *)
Theorem options_preflight env req :
  method req = str "OPTIONS" →
  serve env req =
  Done ()
    {| res := {| headersSent := true; statusCode := 200; headers := corsFields;
                 body := []; finished := true |};
       trace := [ConsoleLog (now env ++ str " - " ++ method req ++ str " " ++ pathname req)] |}
  ∧ requests (trace (worldOf (serve env req))) = []
  ∧ accesses (trace (worldOf (serve env req))) = []
  ∧ reads (trace (worldOf (serve env req))) = [].
Proof.
  intros Hm.
  assert (Hs : serve env req =
    Done ()
      {| res := {| headersSent := true; statusCode := 200; headers := corsFields;
                   body := []; finished := true |};
         trace := [ConsoleLog (now env ++ str " - " ++ method req ++ str " " ++ pathname req)] |}).
  { unfold serve, handler. rewrite bind_run. simpl.
    rewrite Hm. replace (streq (str "OPTIONS") (str "OPTIONS")) with true by done.
    rewrite bind_run, run_setCORSHeaders_fresh. done. }
  rewrite Hs. done.
Qed.

Lemma options_preflight_witness :
  statusCode (res (worldOf (serve (Example.env Example.answering)
    {| method := str "OPTIONS"; pathname := str "/api/fund/161725";
       days := QUndefined |}))) = 200%Z.
Proof.
  rewrite (proj1 (options_preflight (Example.env Example.answering)
    {| method := str "OPTIONS"; pathname := str "/api/fund/161725";
       days := QUndefined |} eq_refl)).
  reflexivity.
Defined.

(** C5 fails on the code: the 404 answers are written without
    [setCORSHeaders].  A request for a file that does not exist is
    answered with status 404 and none of the four CORS header fields. *)
Theorem not_found_without_cors :
  let w := worldOf (serve (Example.env [])
                      (Example.get "/missing.png" QUndefined)) in
  statusCode (res w) = 404%Z
  ∧ finished (res w) = true
  ∧ headers (res w) !! str "access-control-allow-origin" = None
  ∧ headers (res w) !! str "access-control-allow-methods" = None
  ∧ headers (res w) !! str "access-control-allow-headers" = None
  ∧ headers (res w) !! str "access-control-allow-credentials" = None.
Proof. vm_compute. repeat split. Qed.

(** On a proxied answer the header fields of the upstream are written
    over those of [setCORSHeaders]: an upstream that sends its own
    [access-control-allow-origin] replaces the [*]. *)
Lemma upstream_fields_replace_cors :
  let env :=
    Example.env
      [UResponse 200 [(str "access-control-allow-origin", str "http://fund.eastmoney.com")];
       UEnd] in
  headers (res (worldOf (serve env (Example.get "/api/fund/161725" QUndefined))))
    !! str "access-control-allow-origin"
  = Some (str "http://fund.eastmoney.com").
Proof. vm_compute. reflexivity. Qed.

(** ** The static branch, step by step *)

Lemma run_notFound t :
  notFound {| res := freshResponse; trace := t |} =
  Done () {| res := notFoundResponse; trace := t |}.
Proof. reflexivity. Qed.

Lemma run_serveStaticFile env filePath t :
  serveStaticFile env filePath {| res := freshResponse; trace := t |} =
  Done ()
    {| res := match fs_readFile (fs env) filePath with
              | Some data => fileResponse (mimeType filePath) data
              | None => notFoundResponse
              end;
       trace := t ++ [FsReadFile filePath] |}.
Proof.
  unfold serveStaticFile. rewrite bind_run. unfold emit. cbn [res trace].
  destruct (fs_readFile _ _) as [data|]; [|done].
  rewrite bind_run, run_setCORSHeaders_fresh. done.
Qed.

(** The file exists. *)
Lemma run_serveStatic_found env filePath t :
  fs_access (fs env) filePath = true →
  serveStatic env filePath {| res := freshResponse; trace := t |} =
  Done ()
    {| res := match fs_readFile (fs env) filePath with
              | Some data => fileResponse (mimeType filePath) data
              | None => notFoundResponse
              end;
       trace := t ++ [FsAccess filePath; FsReadFile filePath] |}.
Proof.
  intros Ha. unfold serveStatic. rewrite bind_run. simpl. rewrite Ha.
  rewrite run_serveStaticFile. by rewrite <- app_assoc.
Qed.

(** The file does not exist and its path has an extension. *)
Lemma run_serveStatic_ext env filePath t :
  fs_access (fs env) filePath = false →
  path.extname filePath ≠ [] →
  serveStatic env filePath {| res := freshResponse; trace := t |} =
  Done () {| res := notFoundResponse; trace := t ++ [FsAccess filePath] |}.
Proof.
  intros Ha He. unfold serveStatic. rewrite bind_run. simpl. rewrite Ha.
  by destruct (path.extname filePath).
Qed.

(** The file does not exist and its path has no extension. *)
Lemma run_serveStatic_noext env filePath t :
  fs_access (fs env) filePath = false →
  path.extname filePath = [] →
  serveStatic env filePath {| res := freshResponse; trace := t |} =
  if fs_access (fs env) (filePath ++ str ".html")
  then
    Done ()
      {| res := match fs_readFile (fs env) (filePath ++ str ".html") with
                | Some data => fileResponse (mimeType (filePath ++ str ".html")) data
                | None => notFoundResponse
                end;
         trace := t ++ [FsAccess filePath; FsAccess (filePath ++ str ".html");
                        FsReadFile (filePath ++ str ".html")] |}
  else
    Done ()
      {| res := notFoundResponse;
         trace := t ++ [FsAccess filePath; FsAccess (filePath ++ str ".html")] |}.
Proof.
  intros Ha He. unfold serveStatic. rewrite bind_run. simpl. rewrite Ha, He.
  simpl. rewrite bind_run. simpl.
  destruct (fs_access _ (filePath ++ _)).
  - rewrite run_serveStaticFile. by rewrite <- !app_assoc.
  - rewrite run_notFound. by rewrite <- !app_assoc.
Qed.

(** C6.  In the static branch, when the resolved path does not exist: a
    path without extension is tried once more with [.html] appended, and
    that file is served if it exists; for a path with an extension the
    answer is 404 with the plain text [File not found], and no second
    path is tried. *)
Theorem html_fallback env req :
  streq (method req) (str "OPTIONS") = false →
  proxyTarget req = None →
  let filePath := resolve env (pathname req) in
  fs_access (fs env) filePath = false →
  let w := worldOf (serve env req) in
  (path.extname filePath = [] →
   accesses (trace w) = [filePath; filePath ++ str ".html"]
   ∧ (fs_access (fs env) (filePath ++ str ".html") = true →
      reads (trace w) = [filePath ++ str ".html"]
      ∧ ∀ data, fs_readFile (fs env) (filePath ++ str ".html") = Some data →
          res w = fileResponse (mimeType (filePath ++ str ".html")) data)
   ∧ (fs_access (fs env) (filePath ++ str ".html") = false →
      reads (trace w) = [] ∧ res w = notFoundResponse))
  ∧ (path.extname filePath ≠ [] →
     accesses (trace w) = [filePath]
     ∧ reads (trace w) = []
     ∧ res w = notFoundResponse).
Proof.
  intros Hm Ht filePath Ha w. unfold w. rewrite (serve_static env req Hm Ht).
  fold filePath. split; intros He.
  - rewrite (run_serveStatic_noext env filePath _ Ha He).
    destruct (fs_access (fs env) (filePath ++ str ".html")); simpl.
    + split; [done|]. split; [|done]. intros _. split; [done|].
      by intros data ->.
    + split; [done|]. split; [done|]. done.
  - by rewrite (run_serveStatic_ext env filePath _ Ha He).
Qed.

Lemma html_fallback_witness :
  res (worldOf (serve (Example.env []) (Example.get "/about" QUndefined))) =
  fileResponse (str "text/html") (str "<html>about</html>")
  ∧ res (worldOf (serve (Example.env []) (Example.get "/missing.png" QUndefined))) =
    notFoundResponse.
Proof.
  split.
  - apply (html_fallback (Example.env []) (Example.get "/about" QUndefined));
      reflexivity.
  - apply (html_fallback (Example.env []) (Example.get "/missing.png" QUndefined));
      [reflexivity|reflexivity|reflexivity|].
    vm_compute. discriminate.
Defined.

(** ** Resolving a file name under the document root *)

Lemma fold_left_step_skip allow segs kept :
  fold_left (path.step allow) ([] :: segs) kept = fold_left (path.step allow) segs kept.
Proof. reflexivity. Qed.

Lemma last_app_cons {A} (l : list A) x k : last (l ++ x :: k) = last (x :: k).
Proof. induction l as [|y [|z l] IH]; simpl in *; done. Qed.

(** A slash too many between the directory and the file makes no
    difference to [path.join]. *)
Lemma join_double_slash dir file :
  dir ≠ [] → file ≠ [] →
  path.join [dir; Ch.slash :: file] = path.join [dir; file].
Proof.
  intros Hd Hf. unfold path.join.
  rewrite !filter_cons_True by done.
  rewrite filter_nil. cbn [join].
  destruct dir as [|c dir]; [done|]. destruct file as [|f file]; [done|].
  unfold path.normalize. cbn [app].
  change (c :: dir ++ Ch.slash :: Ch.slash :: f :: file)
    with ((c :: dir) ++ Ch.slash :: Ch.slash :: f :: file).
  change (c :: dir ++ Ch.slash :: f :: file)
    with ((c :: dir) ++ Ch.slash :: f :: file).
  rewrite !last_app_cons.
  change (last (Ch.slash :: Ch.slash :: f :: file)) with (last (f :: file)).
  change (last (Ch.slash :: f :: file)) with (last (f :: file)).
  assert (Hn : ∀ allow,
    path.normalizeString ((c :: dir) ++ Ch.slash :: Ch.slash :: f :: file) allow
    = path.normalizeString ((c :: dir) ++ Ch.slash :: f :: file) allow).
  { intros allow. unfold path.normalizeString.
    rewrite !split_app, !fold_left_app.
    change (split Ch.slash (Ch.slash :: f :: file))
      with ([] :: split Ch.slash (f :: file)).
    by rewrite fold_left_step_skip. }
  by rewrite Hn.
Qed.

Lemma join_snoc sep (l : list jsstring) x :
  join sep (l ++ [x]) = match l with [] => x | _ => join sep l ++ sep ++ x end.
Proof.
  induction l as [|y l IH]; [done|].
  cbn [app join]. destruct l as [|z l]; [done|].
  cbn [app] in *. rewrite IH. by rewrite <- !app_assoc.
Qed.

(** [path.join] keeps a plain file name as the last component. *)
Lemma join_plainName dir file :
  dir ≠ [] → plainName file →
  ∃ pre, (pre = [] ∨ ∃ pre', pre = pre' ++ [Ch.slash])
         ∧ path.join [dir; file] = pre ++ file.
Proof.
  intros Hd (Hf & Hdot & Hdots & Hs). unfold path.join.
  rewrite !filter_cons_True by done. rewrite filter_nil. cbn [join].
  destruct dir as [|c dir]; [done|]. unfold path.normalize. cbn [app].
  change (c :: dir ++ Ch.slash :: file) with ((c :: dir) ++ Ch.slash :: file).
  assert (Hl : last ((c :: dir) ++ Ch.slash :: file) ≠ Some Ch.slash).
  { rewrite last_app_cons. destruct file as [|f file] using rev_ind; [done|].
    rewrite app_comm_cons, last_snoc. intros [= ->].
    rewrite forallb_app in Hs. by apply andb_true_iff in Hs as [_ Hs]. }
  rewrite (bool_decide_eq_false_2 _ Hl).
  unfold path.normalizeString.
  rewrite split_app, fold_left_app, (split_no_sep _ file Hs). cbn [fold_left].
  set (kept := fold_left _ (split Ch.slash (c :: dir)) []).
  assert (Hstep : path.step (negb (c =? Ch.slash)) kept file = file :: kept).
  { unfold path.step.
    rewrite (proj2 (streq_false file []) Hf), (proj2 (streq_false file _) Hdot),
      (proj2 (streq_false file _) Hdots). done. }
  rewrite Hstep. cbn [rev]. rewrite join_snoc.
  destruct (rev kept) as [|k ks] eqn:Ek.
  - destruct file as [|f file]; [done|].
    destruct (c =? Ch.slash).
    + exists [Ch.slash]. split; [right; by exists []|done].
    + exists []. split; [by left|done].
  - set (body := join [Ch.slash] (k :: ks)).
    assert (Hne : body ++ [Ch.slash] ++ file ≠ []) by (by destruct body).
    destruct (body ++ [Ch.slash] ++ file) as [|b bs] eqn:Eb; [done|].
    rewrite <- Eb.
    destruct (c =? Ch.slash).
    + exists (Ch.slash :: body ++ [Ch.slash]).
      split; [right; by exists (Ch.slash :: body)|].
      cbn [app]. by rewrite <- !app_assoc.
    + exists (body ++ [Ch.slash]). split; [right; by exists body|].
      by rewrite <- !app_assoc.
Qed.

Lemma dropWhile_head f c s : f c = false → path.dropWhile f (c :: s) = c :: s.
Proof. intros H. simpl. by rewrite H. Qed.

(** The extension of a path is that of its last component. *)
Lemma extname_plainName pre file :
  pre = [] ∨ (∃ pre', pre = pre' ++ [Ch.slash]) →
  plainName file →
  path.extname (pre ++ file) = path.extname file.
Proof.
  intros Hpre (Hf & _ & _ & Hs).
  assert (Hb : path.rev_basename (pre ++ file) = path.rev_basename file);
    [|unfold path.extname; by rewrite Hb].
  assert (Hrs : forallb (λ c, negb (c =? Ch.slash)) (rev file) = true).
  { rewrite forallb_forall in *. intros x Hx%in_rev. auto. }
  assert (Hdrop : ∀ k, path.dropWhile (λ c, c =? Ch.slash) (rev file ++ k)
                       = rev file ++ k).
  { intros k. destruct (rev file) as [|x xs] eqn:Er.
    - destruct file using rev_ind; [done|]. rewrite rev_unit in Er. done.
    - cbn [app]. apply dropWhile_head. simpl in Hrs.
      apply andb_true_iff in Hrs as [Hx _]. by apply negb_true_iff in Hx. }
  unfold path.rev_basename. rewrite rev_app_distr, Hdrop.
  rewrite <- (app_nil_r (rev file)) at 2. rewrite Hdrop, app_nil_r.
  rewrite takeWhile_app by done. rewrite (takeWhile_all _ (rev file)) by done.
  destruct Hpre as [->|[pre' ->]]; [by rewrite app_nil_r|].
  rewrite rev_unit. cbn. by rewrite app_nil_r.
Qed.

Lemma plainName_calculator : plainName (str "fund_calculator.html").
Proof. repeat split; done. Qed.

(** The default document is served as [text/html]. *)
Lemma mimeType_calculator env :
  dirname env ≠ [] → mimeType (resolve env (str "/")) = str "text/html".
Proof.
  intros Hd. unfold resolve. replace (streq (str "/") (str "/")) with true by done.
  destruct (join_plainName (dirname env) _ Hd plainName_calculator)
    as (pre & Hpre & ->).
  unfold mimeType. rewrite (extname_plainName pre _ Hpre plainName_calculator).
  by vm_compute.
Qed.

(** C7.  A request for [/] resolves to the same file as a request for
    [/fund_calculator.html] and is answered alike; when the file exists
    (and can be read), with status 200, content type [text/html] and the
    bytes of the file. *)
Theorem root_serves_calculator env m d1 d2 :
  dirname env ≠ [] →
  streq m (str "OPTIONS") = false →
  let root := {| method := m; pathname := str "/"; days := d1 |} in
  let page := {| method := m; pathname := str "/fund_calculator.html"; days := d2 |} in
  resolve env (pathname root) = resolve env (pathname page)
  ∧ res (worldOf (serve env root)) = res (worldOf (serve env page))
  ∧ (fs_access (fs env) (resolve env (pathname page)) = true →
     ∀ data, fs_readFile (fs env) (resolve env (pathname page)) = Some data →
       res (worldOf (serve env root)) = fileResponse (str "text/html") data
       ∧ res (worldOf (serve env page)) = fileResponse (str "text/html") data).
Proof.
  intros Hd Hm. cbv zeta. cbn [pathname].
  set (root := {| method := m; pathname := str "/"; days := d1 |}).
  set (page := {| method := m; pathname := str "/fund_calculator.html"; days := d2 |}).
  assert (Hr : resolve env (str "/") = resolve env (str "/fund_calculator.html")).
  { unfold resolve.
    replace (streq (str "/") (str "/")) with true by done.
    replace (streq (str "/fund_calculator.html") (str "/")) with false by done.
    symmetry. by apply (join_double_slash (dirname env) (str "fund_calculator.html")). }
  pose proof (mimeType_calculator env Hd) as Hmime. rewrite Hr in Hmime.
  assert (Hroot : serve env root =
    serveStatic env (resolve env (str "/fund_calculator.html"))
      {| res := freshResponse;
         trace := [ConsoleLog (now env ++ str " - " ++ m ++ str " " ++ str "/")] |}).
  { rewrite serve_static by done. unfold root. cbn [pathname method]. by rewrite Hr. }
  assert (Hpage : serve env page =
    serveStatic env (resolve env (str "/fund_calculator.html"))
      {| res := freshResponse;
         trace := [ConsoleLog (now env ++ str " - " ++ m ++ str " "
                               ++ str "/fund_calculator.html")] |}).
  { by rewrite serve_static by done. }
  rewrite Hroot, Hpage. clear Hroot Hpage. split; [done|].
  revert Hmime. generalize (resolve env (str "/fund_calculator.html")).
  intros filePath Hmime.
  destruct (fs_access (fs env) filePath) eqn:Ha.
  - rewrite !run_serveStatic_found by done. cbn [worldOf res]. split; [done|].
    intros _ data ->. by rewrite Hmime.
  - split; [|done].
    destruct (path.extname filePath) as [|e es] eqn:He.
    + rewrite !run_serveStatic_noext by done.
      by destruct (fs_access (fs env) (_ ++ _)).
    + by rewrite !run_serveStatic_ext by (done || by rewrite He).
Qed.

Lemma root_serves_calculator_witness :
  res (worldOf (serve (Example.env []) (Example.get "/" QUndefined))) =
  fileResponse (str "text/html") (str "<html>calc</html>").
Proof.
  apply (root_serves_calculator (Example.env []) (str "GET") QUndefined QUndefined);
    [discriminate|reflexivity|reflexivity|reflexivity].
Defined.

(** ** The forwarder, step by step *)

(** [proxyRequest] on a fresh response: the request is made, then the
    upstream events are handed to the listeners. *)
Lemma run_proxyRequest env req targetUrl t :
  proxyRequest env req targetUrl {| res := freshResponse; trace := t |} =
  deliver false (upstream env)
    {| res := freshResponse;
       trace := t ++ [UpstreamRequest (protocol targetUrl) (proxyOptions req targetUrl)] |}.
Proof. reflexivity. Qed.

(** The error listener on a response whose header is not yet sent. *)
Lemma run_onError message t :
  onError message {| res := freshResponse; trace := t |} =
  Done ()
    {| res := {| headersSent := true; statusCode := 500;
                 headers := <[ str "content-type" := str "application/json" ]> corsFields;
                 body := [Text (JSON.stringify [(str "error", proxyFailed);
                                                (str "message", message)])];
                 finished := true |};
       trace := t ++ [ConsoleError proxyErrorLabel message] |}.
Proof.
  unfold onError. rewrite bind_run. simpl.
  rewrite bind_run, run_setCORSHeaders_fresh. done.
Qed.

(** The error listener on a response whose header is sent: the error is
    logged, then [setCORSHeaders] throws. *)
Lemma run_onError_sent message w :
  headersSent (res w) = true →
  onError message w =
  Uncaught ERR_HTTP_HEADERS_SENT
    {| res := res w; trace := trace w ++ [ConsoleError proxyErrorLabel message] |}.
Proof.
  intros H. unfold onError. rewrite bind_run. simpl.
  rewrite bind_run, run_setCORSHeaders_sent by done. done.
Qed.

(** The response callback on a fresh response. *)
Lemma run_onResponse status hdrs t :
  onResponse status hdrs {| res := freshResponse; trace := t |} =
  Done ()
    {| res := {| headersSent := true; statusCode := status;
                 headers := mergeHeaders hdrs corsFields;
                 body := []; finished := false |};
       trace := t |}.
Proof.
  unfold onResponse. rewrite bind_run, run_setCORSHeaders_fresh. done.
Qed.

(** The pipe writes the chunks of the upstream body as they come. *)
Lemma run_deliver_data chunks : ∀ events status hdrs b t,
  deliver true ((UData <$> chunks) ++ events)
    {| res := {| headersSent := true; statusCode := status; headers := hdrs;
                 body := b; finished := false |};
       trace := t |} =
  deliver true events
    {| res := {| headersSent := true; statusCode := status; headers := hdrs;
                 body := b ++ (Buffer <$> chunks); finished := false |};
       trace := t |}.
Proof.
  induction chunks as [|c chunks IH]; intros events status hdrs b t.
  - simpl. by rewrite app_nil_r.
  - cbn [fmap list_fmap app deliver]. rewrite bind_run. simpl.
    fold (fmap (M:=list) UData chunks). rewrite IH.
    by rewrite <- app_assoc.
Qed.

(** An upstream that answers and ends: its status, its header fields
    over those of [setCORSHeaders], and its body. *)
Lemma run_upstream_answer env req targetUrl status hdrs chunks rest :
  streq (method req) (str "OPTIONS") = false →
  proxyTarget req = Some targetUrl →
  upstream env = UResponse status hdrs :: (UData <$> chunks) ++ UEnd :: rest →
  res (worldOf (serve env req)) =
  {| headersSent := true; statusCode := status;
     headers := mergeHeaders hdrs corsFields;
     body := Buffer <$> chunks; finished := true |}.
Proof.
  intros Hm Ht Hu. rewrite (serve_proxy env req targetUrl Hm Ht).
  rewrite run_proxyRequest, Hu. cbn [deliver].
  rewrite bind_run, run_onResponse, run_deliver_data. simpl.
  by rewrite app_nil_r.
Qed.

(** An upstream that fails after it has answered. *)
Lemma run_midstream_error env req targetUrl status hdrs chunks message rest :
  streq (method req) (str "OPTIONS") = false →
  proxyTarget req = Some targetUrl →
  upstream env = UResponse status hdrs :: (UData <$> chunks) ++ UError message :: rest →
  serve env req =
  Uncaught ERR_HTTP_HEADERS_SENT
    {| res := {| headersSent := true; statusCode := status;
                 headers := mergeHeaders hdrs corsFields;
                 body := Buffer <$> chunks; finished := false |};
       trace := [ConsoleLog (now env ++ str " - " ++ method req ++ str " " ++ pathname req);
                 UpstreamRequest (protocol targetUrl) (proxyOptions req targetUrl);
                 ConsoleError proxyErrorLabel message] |}.
Proof.
  intros Hm Ht Hu. rewrite (serve_proxy env req targetUrl Hm Ht).
  rewrite run_proxyRequest, Hu. cbn [deliver].
  rewrite bind_run, run_onResponse, run_deliver_data. cbn [deliver].
  by rewrite run_onError_sent.
Qed.

(** ** Quoting and reading back JSON strings *)

Lemma hexValue_hexDigit d : d < 16 → JSON.hexValue (JSON.hexDigit d) = Some d.
Proof.
  intros Hd. unfold JSON.hexDigit, JSON.hexValue.
  destruct (N.ltb_spec d 10).
  - replace ((48 <=? 48 + d) && (48 + d <=? 57)) with true.
    + f_equal. lia.
    + symmetry. apply andb_true_iff. split; apply N.leb_le; lia.
  - replace ((48 <=? 87 + d) && (87 + d <=? 57)) with false.
    + replace ((97 <=? 87 + d) && (87 + d <=? 102)) with true.
      * f_equal. lia.
      * symmetry. apply andb_true_iff. split; apply N.leb_le; lia.
    + symmetry. apply andb_false_iff. right. apply N.leb_gt. lia.
Qed.

Lemma unquote_unicodeEscape c tail r rest :
  c < 65536 →
  JSON.unquoteBody tail = Some (r, rest) →
  JSON.unquoteBody (JSON.unicodeEscape c ++ tail) = Some (c :: r, rest).
Proof.
  intros Hc Ht. unfold JSON.unicodeEscape. cbn [app JSON.unquoteBody].
  change (Ch.backslash =? Ch.quote) with false.
  change (Ch.backslash =? Ch.backslash) with true.
  change (117 =? 117) with true. cbv iota.
  rewrite !hexValue_hexDigit by (apply N.mod_lt; lia). rewrite Ht.
  do 2 f_equal. f_equal.
  zify. Z.to_euclidean_division_equations. lia.
Qed.

Lemma unquote_quoteUnit c tail r rest :
  JSON.unquoteBody tail = Some (r, rest) →
  JSON.unquoteBody (JSON.quoteUnit c ++ tail) = Some (c :: r, rest).
Proof.
  intros Ht. unfold JSON.quoteUnit.
  repeat match goal with
         | |- context [c =? ?k] =>
             destruct (N.eqb_spec c k) as [->|?];
             [literals; simpl; by rewrite Ht|]
         end.
  destruct ((c <? 32) || JSON.isHighSurrogate c || JSON.isLowSurrogate c) eqn:E.
  - apply unquote_unicodeEscape; [|done].
    unfold JSON.isHighSurrogate, JSON.isLowSurrogate in E.
    repeat (apply orb_true_iff in E as [E|E]);
      [apply N.ltb_lt in E|apply andb_true_iff in E as [_ E%N.leb_le]..]; lia.
  - apply orb_false_iff in E as [[E _]%orb_false_iff _].
    cbn [app JSON.unquoteBody].
    rewrite (proj2 (N.eqb_neq c Ch.quote)), (proj2 (N.eqb_neq c Ch.backslash)) by done.
    by rewrite E, Ht.
Qed.

Lemma unquote_quoteBody s rest :
  JSON.unquoteBody (JSON.quoteBody s ++ Ch.quote :: rest) = Some (s, rest).
Proof.
  assert (H : ∀ s, (JSON.unquoteBody (JSON.quoteBody s ++ Ch.quote :: rest) = Some (s, rest))
                   ∧ ∀ c, JSON.unquoteBody (JSON.quoteBody (c :: s) ++ Ch.quote :: rest)
                          = Some (c :: s, rest)); [|apply H].
  clear s. induction s as [|d s [IH1 IH2]].
  - split; [done|]. intros c. cbn [JSON.quoteBody].
    by apply unquote_quoteUnit.
  - split; [apply IH2|]. intros c. cbn [JSON.quoteBody].
    destruct (JSON.isHighSurrogate c && JSON.isLowSurrogate d) eqn:E.
    + apply andb_true_iff in E as [Hc Hd].
      unfold JSON.isHighSurrogate in Hc. unfold JSON.isLowSurrogate in Hd.
      apply andb_true_iff in Hc as [Hc%N.leb_le _].
      apply andb_true_iff in Hd as [Hd%N.leb_le _].
      cbn [app JSON.unquoteBody].
      rewrite (proj2 (N.eqb_neq c Ch.quote)), (proj2 (N.eqb_neq c Ch.backslash)),
        (proj2 (N.eqb_neq d Ch.quote)), (proj2 (N.eqb_neq d Ch.backslash))
        by (change Ch.quote with 34; change Ch.backslash with 92; lia).
      rewrite (proj2 (N.ltb_ge c 32)), (proj2 (N.ltb_ge d 32)) by lia.
      by rewrite IH1.
    + rewrite <- app_assoc. apply unquote_quoteUnit, IH2.
Qed.

(** Reading back a string that [JSON.stringify] has quoted gives the
    string. *)
Lemma unquote_quoteString s rest :
  JSON.unquoteString (JSON.quoteString s ++ rest) = Some (s, rest).
Proof.
  unfold JSON.quoteString, JSON.unquoteString. cbn [app].
  change (Ch.quote =? Ch.quote) with true. cbv iota.
  rewrite <- app_assoc. apply unquote_quoteBody.
Qed.

(** ** The forwarder's failures *)

(** C8.  When the upstream request fails before anything was sent to the
    client, the client gets status 500 with content type
    [application/json] (and the CORS fields), and a JSON body with the
    keys [error], the fixed text, and [message], the text of the error;
    the one upstream request is not repeated. *)
Theorem upstream_unreachable_500 env req targetUrl message rest :
  streq (method req) (str "OPTIONS") = false →
  proxyTarget req = Some targetUrl →
  upstream env = UError message :: rest →
  let json :=
    str "{" ++ JSON.quoteString (str "error") ++ str ":" ++ JSON.quoteString proxyFailed
    ++ str "," ++ JSON.quoteString (str "message") ++ str ":" ++ JSON.quoteString message
    ++ str "}" in
  serve env req =
  Done ()
    {| res := {| headersSent := true; statusCode := 500;
                 headers := <[ str "content-type" := str "application/json" ]> corsFields;
                 body := [Text json]; finished := true |};
       trace := [ConsoleLog (now env ++ str " - " ++ method req ++ str " " ++ pathname req);
                 UpstreamRequest (protocol targetUrl) (proxyOptions req targetUrl);
                 ConsoleError proxyErrorLabel message] |}
  ∧ JSON.unquoteString (JSON.quoteString message ++ str "}") = Some (message, str "}")
  ∧ requests (trace (worldOf (serve env req))) =
    [(protocol targetUrl, proxyOptions req targetUrl)].
Proof.
  intros Hm Ht Hu json. split; [|split].
  - rewrite (serve_proxy env req targetUrl Hm Ht), run_proxyRequest, Hu.
    cbn [deliver]. rewrite run_onError. unfold json, JSON.stringify.
    cbn [JSON.stringifyProps]. by rewrite <- !app_assoc.
  - apply unquote_quoteString.
  - by apply requests_proxy.
Qed.

Lemma upstream_unreachable_500_witness :
  statusCode (res (worldOf (serve (Example.env Example.unreachable)
    (Example.get "/api/fund/161725" QUndefined)))) = 500%Z.
Proof.
  rewrite (proj1 (upstream_unreachable_500 (Example.env Example.unreachable)
    (Example.get "/api/fund/161725" QUndefined)
    (snapshotUrl (str "161725")) (str "connect ECONNREFUSED 127.0.0.1:443") []
    eq_refl eq_refl eq_refl)).
  reflexivity.
Defined.

(** C9 fails on the code.  The upstream answers 200, one chunk of its body
    reaches the client, then the connection is reset: the error listener
    logs the error and calls [setCORSHeaders] on a response whose header
    is sent, which throws; no one catches the exception, and [res.end] is
    never called. *)
Theorem midstream_error_uncaught :
  serve (Example.env Example.resetting) (Example.get "/api/fund/161725" QUndefined) =
  Uncaught ERR_HTTP_HEADERS_SENT
    {| res := {| headersSent := true; statusCode := 200;
                 headers := <[ str "content-type" := str "application/javascript" ]> corsFields;
                 body := [Buffer (str "jsonpgz({")]; finished := false |};
       trace := [ConsoleLog (str "2024-01-01T00:00:00.000Z - GET /api/fund/161725");
                 UpstreamRequest true
                   (proxyOptions (Example.get "/api/fund/161725" QUndefined)
                      (str "https://fundgz.1234567.com.cn/js/161725.js"));
                 ConsoleError proxyErrorLabel (str "read ECONNRESET")] |}.
Proof.
  apply (run_midstream_error (Example.env Example.resetting)
           (Example.get "/api/fund/161725" QUndefined)
           (snapshotUrl (str "161725")) 200
           [(str "content-type", str "application/javascript")]
           [str "jsonpgz({"] (str "read ECONNRESET") []); reflexivity.
Qed.

(** * Further properties of the program *)

(** ** Which paths are proxied *)

Lemma removelast_snoc {A} (l : list A) x : removelast (l ++ [x]) = l.
Proof. apply removelast_last. Qed.

(** A path that ends in a slash-free segment [c] after a slash. *)
Lemma last_segment base c :
  forallb (λ x, negb (x =? Ch.slash)) c = true →
  split Ch.slash (base ++ Ch.slash :: c) = split Ch.slash base ++ [c].
Proof. intros Hc. by rewrite split_app, (split_no_sep _ c Hc). Qed.

(** The same path with one more slash at its end. *)
Lemma last_segment_slash base c :
  forallb (λ x, negb (x =? Ch.slash)) c = true →
  split Ch.slash (base ++ Ch.slash :: c ++ [Ch.slash]) =
  (split Ch.slash base ++ [c]) ++ [[]].
Proof.
  intros Hc. rewrite split_app, (split_app _ c []), (split_no_sep _ c Hc).
  by rewrite app_assoc.
Qed.

Lemma code_no_slash c :
  test_6digits c = true → forallb (λ x, negb (x =? Ch.slash)) c = true.
Proof. intros Hc. apply digits_no; [done|]. by apply test_6digits_digits. Qed.

Lemma ends_in_slash prefix mid :
  (∃ p, prefix = p ++ [Ch.slash]) →
  mid = [] ∨ (∃ m, mid = m ++ [Ch.slash]) →
  ∃ base, prefix ++ mid = base ++ [Ch.slash].
Proof.
  intros [p ->] [->|[m ->]].
  - exists p. by rewrite app_nil_r.
  - exists ((p ++ [Ch.slash]) ++ m). by rewrite app_assoc.
Qed.

(** X1.  On the history route only the end of the path counts: whatever
    segments lie between [/api/fund/history/] and a last segment of six
    digits, and with or without one slash after it, the request is proxied
    to the history endpoint with that code. *)
Theorem history_route_last_segment req mid c :
  mid = [] ∨ (∃ m, mid = m ++ [Ch.slash]) →
  test_6digits c = true →
  pathname req = str "/api/fund/history/" ++ mid ++ c
  ∨ pathname req = str "/api/fund/history/" ++ mid ++ c ++ [Ch.slash] →
  proxyTarget req = Some (historyUrl c (pageSize (days req))).
Proof.
  intros Hmid Hc Hp.
  destruct (ends_in_slash (str "/api/fund/history/") mid) as [base Hb];
    [by exists (str "/api/fund/history")|done|].
  pose proof (code_no_slash c Hc) as Hs.
  destruct (test_6digits_cons c Hc) as (d & c' & Ec & _).
  assert (Hstart : startsWith (pathname req) (str "/api/fund/history/") = true).
  { destruct Hp as [-> | ->]; apply startsWith_prefix. }
  assert (Hcode : historyFundCode (pathname req) = Some c).
  { unfold historyFundCode, pop.
    destruct Hp as [-> | ->]; rewrite app_assoc, Hb, <- app_assoc; cbn [app].
    - rewrite (last_segment base c Hs), last_snoc. by rewrite Ec.
    - rewrite (last_segment_slash base c Hs), last_snoc, removelast_snoc.
      unfold or_else. cbn [truthy fst]. apply last_snoc. }
  unfold proxyTarget. by rewrite Hstart, Hcode, (validFundCode_code c Hc).
Qed.

Lemma history_route_last_segment_witness :
  proxyTarget (Example.get "/api/fund/history/a/b/161725/" (QString (str "90"))) =
  Some (historyUrl (str "161725") (Fin 90)).
Proof.
  apply (history_route_last_segment
           (Example.get "/api/fund/history/a/b/161725/" (QString (str "90")))
           (str "a/b/") (str "161725")).
  - right. by exists (str "a/b").
  - reflexivity.
  - right. reflexivity.
Defined.

(** X2.  On the snapshot route, too, only the last segment counts, but a
    slash after the code is not forgiven: [/api/fund/.../{code}] is proxied
    to the snapshot endpoint, [/api/fund/.../{code}/] goes to the static
    files. *)
Theorem snapshot_route_last_segment req mid c :
  mid = [] ∨ (∃ m, mid = m ++ [Ch.slash]) →
  test_6digits c = true →
  startsWith (pathname req) (str "/api/fund/history/") = false →
  (pathname req = str "/api/fund/" ++ mid ++ c →
   proxyTarget req = Some (snapshotUrl c))
  ∧ (pathname req = str "/api/fund/" ++ mid ++ c ++ [Ch.slash] →
     proxyTarget req = None).
Proof.
  intros Hmid Hc Hh.
  destruct (ends_in_slash (str "/api/fund/") mid) as [base Hb];
    [by exists (str "/api/fund")|done|].
  pose proof (code_no_slash c Hc) as Hs.
  split; intros Hp; unfold proxyTarget; rewrite Hh.
  - assert (Hcode : snapshotFundCode (pathname req) = Some c).
    { unfold snapshotFundCode, pop. rewrite Hp, app_assoc, Hb, <- app_assoc.
      cbn [app fst]. rewrite (last_segment base c Hs). apply last_snoc. }
    rewrite Hcode, (validFundCode_code c Hc).
    by rewrite Hp, startsWith_prefix.
  - assert (Hcode : snapshotFundCode (pathname req) = Some []).
    { unfold snapshotFundCode, pop. rewrite Hp, app_assoc, Hb, <- app_assoc.
      cbn [app fst]. rewrite (last_segment_slash base c Hs). apply last_snoc. }
    rewrite Hcode. by destruct (startsWith (pathname req) (str "/api/fund/")).
Qed.

Lemma snapshot_route_last_segment_witness :
  proxyTarget (Example.get "/api/fund/x/161725" QUndefined) =
    Some (snapshotUrl (str "161725"))
  ∧ proxyTarget (Example.get "/api/fund/x/161725/" QUndefined) = None.
Proof.
  split.
  - apply (snapshot_route_last_segment
             (Example.get "/api/fund/x/161725" QUndefined) (str "x/") (str "161725"));
      [right; by exists (str "x")|reflexivity|reflexivity|reflexivity].
  - apply (snapshot_route_last_segment
             (Example.get "/api/fund/x/161725/" QUndefined) (str "x/") (str "161725"));
      [right; by exists (str "x")|reflexivity|reflexivity|reflexivity].
Defined.

(** ** What is asked of the upstream *)

(** A target is one of the two templates, filled with six digits. *)
Lemma proxyTarget_inv req targetUrl :
  proxyTarget req = Some targetUrl →
  ∃ c, test_6digits c = true
       ∧ (targetUrl = snapshotUrl c
          ∨ targetUrl = historyUrl c (Fin (specPageSize (days req)))).
Proof.
  unfold proxyTarget. intros Ht.
  destruct (startsWith (pathname req) (str "/api/fund/history/")).
  - destruct (validFundCode _) eqn:Hv; [|done].
    apply validFundCode_inv in Hv as (c & Hfc & Hc). rewrite Hfc in Ht.
    injection Ht as <-. exists c. split; [done|right].
    by rewrite pageSize_spec.
  - destruct (startsWith (pathname req) (str "/api/fund/")); [|done].
    destruct (validFundCode _) eqn:Hv; [|done].
    apply validFundCode_inv in Hv as (c & Hfc & Hc). rewrite Hfc in Ht.
    injection Ht as <-. exists c. split; [done|by left].
Qed.

(** The run of a request with method [OPTIONS]. *)
Lemma serve_options env req :
  streq (method req) (str "OPTIONS") = true →
  serve env req =
  Done ()
    {| res := {| headersSent := true; statusCode := 200; headers := corsFields;
                 body := []; finished := true |};
       trace := [ConsoleLog (now env ++ str " - " ++ method req ++ str " " ++ pathname req)] |}.
Proof.
  intros Hm. unfold serve, handler. rewrite bind_run. simpl. rewrite Hm.
  rewrite bind_run, run_setCORSHeaders_fresh. done.
Qed.

(** X3.  Whatever the request, the server asks at most one thing of the
    outside world, and only of the two fund hosts: over https, on port
    443, for a path built from six digits (and a page size from 60 to
    365), with the method of the client and the fixed header fields; the
    client's own header fields are not passed on. *)
Theorem upstream_requests_bounded env req :
  requests (trace (worldOf (serve env req))) = []
  ∨ (∃ c, test_6digits c = true
          ∧ requests (trace (worldOf (serve env req))) =
            [(true,
              {| opt_hostname := str "fundgz.1234567.com.cn"; opt_port := inr 443%Z;
                 opt_path := str "/js/" ++ c ++ str ".js"; opt_method := method req;
                 opt_headers := upstreamHeaders |})])
  ∨ (∃ c n, test_6digits c = true ∧ (60 <= n <= 365)%Z
            ∧ requests (trace (worldOf (serve env req))) =
              [(true,
                {| opt_hostname := str "fundmobapi.eastmoney.com";
                   opt_port := inr 443%Z;
                   opt_path :=
                     str "/FundMNewApi/FundMNHisNetList?FCODE=" ++ c
                     ++ str "&pageIndex=1&pageSize=" ++ decimal n
                     ++ str "&appType=ttjj&product=EFund&plat=Iphone&version=6.3.8&deviceid=00000000-0000-0000-0000-000000000000";
                   opt_method := method req; opt_headers := upstreamHeaders |})]).
Proof.
  destruct (streq (method req) (str "OPTIONS")) eqn:Hm.
  { left. by rewrite (serve_options env req Hm). }
  destruct (proxyTarget req) as [targetUrl|] eqn:Ht.
  - rewrite (requests_proxy env req targetUrl Hm Ht).
    apply proxyTarget_inv in Ht as (c & Hc & [-> | ->]); right.
    + left. exists c. split; [done|].
      by rewrite (proxyOptions_snapshot req c Hc).
    + right. pose proof (specPageSize_range (days req)) as Hr.
      exists c, (specPageSize (days req)). split; [done|]. split; [done|].
      rewrite (proxyOptions_history req c _ Hc) by lia. done.
  - left. rewrite (serve_static env req Hm Ht). by rewrite silent_serveStatic.
Qed.

(** ** Reading [days] *)

Lemma trimStart_app s c rest :
  isWhiteSpace c = false → trimStart (s ++ c :: rest) = trimStart s ++ c :: rest.
Proof.
  intros Hc. induction s as [|x s IH]; cbn [app trimStart].
  - by rewrite Hc.
  - by destruct (isWhiteSpace x).
Qed.

Lemma takeWhile_stop p a c b :
  p c = false → takeWhile p (a ++ c :: b) = takeWhile p a.
Proof.
  intros Hc. induction a as [|x a IH]; cbn [app takeWhile].
  - by rewrite Hc.
  - destruct (p x); [by rewrite IH|done].
Qed.

(** [parseInt] stops reading at the first code unit that cannot belong to
    a number. *)
Lemma parseInt10_stop s c rest :
  isWhiteSpace c = false → isDigit c = false →
  (c =? Ch.minus) = false → (c =? Ch.plus) = false →
  parseInt10 (s ++ c :: rest) = parseInt10 s.
Proof.
  intros Hw Hd Hm Hp. unfold parseInt10. rewrite (trimStart_app s c rest Hw).
  destruct (trimStart s) as [|x r]; cbn [app].
  - rewrite Hm, Hp. cbn [takeWhile]. by rewrite Hd.
  - destruct (x =? Ch.minus); [by rewrite (takeWhile_stop _ r c rest Hd)|].
    destruct (x =? Ch.plus); [by rewrite (takeWhile_stop _ r c rest Hd)|].
    change (x :: r ++ c :: rest) with ((x :: r) ++ c :: rest).
    by rewrite (takeWhile_stop isDigit (x :: r) c rest Hd).
Qed.

(** X4.  What follows the number in [days] is ignored: [days=90abc] and
    [days=90.5] give the page size of [days=90]. *)
Theorem pageSize_ignores_suffix s c rest :
  isWhiteSpace c = false → isDigit c = false →
  (c =? Ch.minus) = false → (c =? Ch.plus) = false →
  pageSize (QString (s ++ c :: rest)) = pageSize (QString s).
Proof.
  intros Hw Hd Hm Hp. unfold pageSize, parseInt. cbn [ToString].
  by rewrite (parseInt10_stop s c rest Hw Hd Hm Hp).
Qed.

Lemma pageSize_ignores_suffix_witness :
  pageSize (QString (str "90.5 days")) = pageSize (QString (str "90")).
Proof.
  apply (pageSize_ignores_suffix (str "90") Ch.dot (str "5 days")); reflexivity.
Defined.

(** X5.  When [days] is given several times, the first value alone
    decides the page size. *)
Theorem pageSize_first_days s more :
  pageSize (QArray (s :: more)) = pageSize (QString s).
Proof.
  unfold pageSize, parseInt. cbn [ToString]. destruct more as [|s' more]; [done|].
  replace (join [Ch.comma] (s :: s' :: more))
    with (s ++ Ch.comma :: join [Ch.comma] (s' :: more)) by reflexivity.
  by rewrite parseInt10_stop.
Qed.

(** ** Files that exist *)

(** X6.  A request for a file that exists and can be read is answered with
    status 200, the CORS fields, the content type of the file's extension
    ([text/plain] when the table has none) and the bytes of the file,
    after one [fs.access] and one [fs.readFile] of the resolved path. *)
Theorem static_file_served env req data :
  streq (method req) (str "OPTIONS") = false →
  proxyTarget req = None →
  let filePath := resolve env (pathname req) in
  fs_access (fs env) filePath = true →
  fs_readFile (fs env) filePath = Some data →
  serve env req =
  Done ()
    {| res := {| headersSent := true; statusCode := 200;
                 headers :=
                   <[ str "content-type" :=
                        default (str "text/plain") (mimeTypes !! path.extname filePath) ]>
                     corsFields;
                 body := [Buffer data]; finished := true |};
       trace := [ConsoleLog (now env ++ str " - " ++ method req ++ str " " ++ pathname req);
                 FsAccess filePath; FsReadFile filePath] |}.
Proof.
  intros Hm Ht filePath Ha Hr. rewrite (serve_static env req Hm Ht).
  fold filePath. rewrite (run_serveStatic_found env filePath _ Ha), Hr. done.
Qed.

Lemma static_file_served_witness :
  statusCode (res (worldOf (serve (Example.env [])
    (Example.get "/about.html" QUndefined)))) = 200%Z.
Proof.
  rewrite (static_file_served (Example.env []) (Example.get "/about.html" QUndefined)
             (str "<html>about</html>") eq_refl eq_refl eq_refl eq_refl).
  reflexivity.
Defined.

(** X7.  A path that exists but cannot be read (a directory, say) is
    answered like a missing file: 404 [File not found], without the CORS
    fields, and the [.html] fallback is not tried. *)
Theorem static_unreadable_404 env req :
  streq (method req) (str "OPTIONS") = false →
  proxyTarget req = None →
  let filePath := resolve env (pathname req) in
  fs_access (fs env) filePath = true →
  fs_readFile (fs env) filePath = None →
  serve env req =
  Done ()
    {| res := {| headersSent := true; statusCode := 404;
                 headers := {[ str "content-type" := str "text/plain" ]};
                 body := [Text (str "File not found")]; finished := true |};
       trace := [ConsoleLog (now env ++ str " - " ++ method req ++ str " " ++ pathname req);
                 FsAccess filePath; FsReadFile filePath] |}.
Proof.
  intros Hm Ht filePath Ha Hr. rewrite (serve_static env req Hm Ht).
  fold filePath. rewrite (run_serveStatic_found env filePath _ Ha), Hr. done.
Qed.

Lemma static_unreadable_404_witness :
  statusCode (res (worldOf (serve (Sample.env [])
    (Example.get "/assets" QUndefined)))) = 404%Z.
Proof.
  rewrite (static_unreadable_404 (Sample.env []) (Example.get "/assets" QUndefined)
             eq_refl eq_refl eq_refl eq_refl).
  reflexivity.
Defined.

(** ** The content type of the [.html] fallback *)







(** ** Where a path resolves *)

Lemma join_cons2 sep (x y : jsstring) l :
  join sep (x :: y :: l) = x ++ sep ++ join sep (y :: l).
Proof. reflexivity. Qed.

(** Splitting what was joined gives the segments back. *)
Lemma split_join l :
  l ≠ [] →
  Forall (λ seg, forallb (λ c, negb (c =? Ch.slash)) seg = true) l →
  split Ch.slash (join [Ch.slash] l) = l.
Proof.
  intros Hne Hl. induction Hl as [|x l Hx Hl IH]; [done|].
  destruct l as [|y l].
  - by apply split_no_sep.
  - rewrite join_cons2. change ([Ch.slash] ++ ?k) with (Ch.slash :: k).
    rewrite split_app, (split_no_sep _ x Hx), IH; done.
Qed.

Lemma plainName_no_slash seg :
  plainName seg → forallb (λ c, negb (c =? Ch.slash)) seg = true.
Proof. by intros (_ & _ & _ & ?). Qed.

Lemma step_plainName allow kept seg :
  plainName seg → path.step allow kept seg = seg :: kept.
Proof.
  intros (Hn & Hd & Hdd & _). unfold path.step.
  by rewrite (proj2 (streq_false seg []) Hn), (proj2 (streq_false seg _) Hd),
    (proj2 (streq_false seg _) Hdd).
Qed.

(** Plain names are kept, in order. *)
Lemma fold_step_plainNames allow segs kept :
  Forall plainName segs →
  fold_left (path.step allow) segs kept = rev segs ++ kept.
Proof.
  intros Hs. revert kept. induction Hs as [|x l Hx Hl IH]; intros kept; [done|].
  cbn [fold_left rev]. rewrite (step_plainName allow kept x Hx), IH.
  by rewrite <- app_assoc.
Qed.

(** Under an absolute path each ['..'] takes the last name away, and at
    the root does nothing. *)
Lemma fold_step_dotdot n kept :
  Forall plainName kept →
  fold_left (path.step false) (repeat (str "..") n) kept = drop n kept.
Proof.
  revert kept. induction n as [|n IH]; intros kept Hk; [done|].
  cbn [repeat fold_left]. destruct Hk as [|top below Ht Hb].
  - change (path.step false [] (str "..")) with (@nil jsstring).
    rewrite IH by done. by rewrite drop_nil.
  - assert (Hs : path.step false (top :: below) (str "..") = below).
    { unfold path.step. destruct Ht as (_ & _ & Hdd & _).
      replace (streq (str "..") [] || streq (str "..") (str ".")) with false by done.
      replace (streq (str "..") (str "..")) with true by done.
      by rewrite (proj2 (streq_false top _) Hdd). }
    rewrite Hs. by apply IH.
Qed.

(** The segments of a document root written [/a/b/c] (or [/]). *)
Lemma fold_step_root allow segs :
  Forall plainName segs →
  fold_left (path.step allow) (split Ch.slash (Ch.slash :: join [Ch.slash] segs)) []
  = rev segs.
Proof.
  intros Hs. change (split Ch.slash (Ch.slash :: ?k)) with ([] :: split Ch.slash k).
  rewrite fold_left_step_skip. destruct segs as [|x l]; [done|].
  rewrite split_join; [|done|].
  - rewrite fold_step_plainNames by done. by rewrite app_nil_r.
  - eapply Forall_impl; [exact Hs|]. apply plainName_no_slash.
Qed.

Lemma last_join_snoc l (x : jsstring) :
  x ≠ [] → last (join [Ch.slash] (l ++ [x])) = last x.
Proof.
  intros Hx. rewrite join_snoc. destruct l as [|y l]; [done|].
  destruct x as [|c x]; [done|].
  rewrite app_assoc. apply last_app_cons.
Qed.

Lemma last_no_slash seg :
  plainName seg → last seg ≠ Some Ch.slash.
Proof.
  intros (_ & _ & _ & Hs). destruct seg as [|c seg] using rev_ind; [done|].
  rewrite last_snoc. intros [= ->]. rewrite forallb_app in Hs.
  by apply andb_true_iff in Hs as [_ Hs].
Qed.

(** X9.  The static branch does not keep a request inside the document
    root: under a root [/a/b/...] of [k] names, the path
    [/../../.../file] with [k] or more [..] resolves to [/file], outside
    the root. *)
Theorem traversal_escapes_root env segs n file :
  dirname env = Ch.slash :: join [Ch.slash] segs →
  Forall plainName segs →
  (length segs ≤ n)%nat →
  plainName file →
  resolve env (Ch.slash :: join [Ch.slash] (repeat (str "..") n ++ [file]))
  = Ch.slash :: file.
Proof.
  intros Hd Hs Hn Hf. unfold resolve. rewrite Hd.
  set (ups := repeat (str "..") n ++ [file]).
  assert (Hups : join [Ch.slash] ups ≠ []).
  { unfold ups. rewrite join_snoc. destruct Hf as (Hf & _).
    destruct (repeat _ n) as [|u us]; [done|].
    intros H. symmetry in H.
    by apply (app_cons_not_nil (join [Ch.slash] (u :: us)) file Ch.slash) in H. }
  assert (Hne : streq (Ch.slash :: join [Ch.slash] ups) (str "/") = false).
  { apply streq_false. intros [= H]. done. }
  rewrite Hne. unfold path.join. rewrite !filter_cons_True by done.
  rewrite filter_nil. rewrite join_cons2. cbn [join].
  change ((Ch.slash :: join [Ch.slash] segs) ++ [Ch.slash] ++ Ch.slash :: join [Ch.slash] ups)
    with ((Ch.slash :: join [Ch.slash] segs) ++ Ch.slash :: Ch.slash :: join [Ch.slash] ups).
  unfold path.normalize. cbn [app].
  change (Ch.slash =? Ch.slash) with true. cbn [negb].
  change (Ch.slash :: join [Ch.slash] segs ++ Ch.slash :: Ch.slash :: join [Ch.slash] ups)
    with ((Ch.slash :: join [Ch.slash] segs) ++ Ch.slash :: Ch.slash :: join [Ch.slash] ups).
  assert (Hl : last ((Ch.slash :: join [Ch.slash] segs)
                     ++ Ch.slash :: Ch.slash :: join [Ch.slash] ups) ≠ Some Ch.slash).
  { rewrite last_app_cons.
    destruct (join [Ch.slash] ups) as [|u us] eqn:Eu; [done|].
    change (last (Ch.slash :: Ch.slash :: u :: us)) with (last (u :: us)).
    rewrite <- Eu. unfold ups. rewrite last_join_snoc by apply Hf.
    by apply last_no_slash. }
  rewrite (bool_decide_eq_false_2 _ Hl).
  assert (Hnorm : path.normalizeString
            ((Ch.slash :: join [Ch.slash] segs)
             ++ Ch.slash :: Ch.slash :: join [Ch.slash] ups) false = file).
  { unfold path.normalizeString. rewrite split_app, fold_left_app.
    rewrite (fold_step_root false segs Hs).
    change (split Ch.slash (Ch.slash :: ?k)) with ([] :: split Ch.slash k).
    rewrite fold_left_step_skip. rewrite split_join; [| |].
    - unfold ups. rewrite fold_left_app, fold_step_dotdot.
      + rewrite drop_ge by (rewrite length_rev; lia).
        cbn [fold_left]. by rewrite (step_plainName false [] file Hf).
      + by apply Forall_rev.
    - unfold ups. by destruct (repeat _ n).
    - unfold ups. apply Forall_app. split.
      + apply Forall_forall. intros x Hx%list_elem_of_In%repeat_spec. by subst.
      + apply Forall_cons. split; [by apply plainName_no_slash|done]. }
  rewrite Hnorm. destruct Hf as (Hf & _). by destruct file.
Qed.

Lemma traversal_escapes_root_witness :
  resolve (Sample.env []) (str "/../../etc") = str "/etc".
Proof.
  apply (traversal_escapes_root (Sample.env []) [str "srv"; str "jojo"] 2 (str "etc")).
  - reflexivity.
  - repeat constructor; done.
  - done.
  - repeat split; done.
Defined.

Lemma join_app_segments (a b : list jsstring) :
  a ≠ [] →
  join [Ch.slash] (a ++ b) =
  join [Ch.slash] a ++ match b with [] => [] | _ => Ch.slash :: join [Ch.slash] b end.
Proof.
  intros Ha. induction a as [|x a IH]; [done|]. destruct a as [|y a].
  - destruct b as [|z b]; [cbn; by rewrite app_nil_r|done].
  - change ((x :: y :: a) ++ b) with (x :: y :: (a ++ b)).
    rewrite !join_cons2. change (y :: a ++ b) with ((y :: a) ++ b).
    rewrite IH by done. by rewrite <- !app_assoc.
Qed.

(** Without ['..'] nothing is taken away: the segments that are neither
    empty nor ['.'] are added, in order. *)
Lemma fold_step_no_dotdot allow xs kept :
  str ".." ∉ xs →
  fold_left (path.step allow) xs kept =
  rev (filter (λ seg, seg ≠ [] ∧ seg ≠ str ".") xs) ++ kept.
Proof.
  revert kept. induction xs as [|x xs IH]; intros kept Hx; [done|].
  apply not_elem_of_cons in Hx as [Hne Hxs]. cbn [fold_left].
  rewrite IH by done. unfold path.step.
  destruct (decide (x = [])) as [->|H1].
  { rewrite filter_cons_False by (intros [? _]; done). done. }
  destruct (decide (x = str ".")) as [->|H2].
  { rewrite filter_cons_False by (intros [_ ?]; done). done. }
  rewrite (proj2 (streq_false x []) H1), (proj2 (streq_false x _) H2).
  rewrite (proj2 (streq_false x (str ".."))) by done. cbn [orb].
  rewrite filter_cons_True by done. cbn [rev]. by rewrite <- app_assoc.
Qed.

(** X10.  A path without a ['..'] segment stays inside the document root:
    under a root written [/a/b/...] it resolves to the root itself or to
    the root followed by a slash and more. *)
Theorem no_dotdot_stays_under_root env segs p :
  dirname env = Ch.slash :: join [Ch.slash] segs →
  Forall plainName segs →
  p ≠ [] →
  str ".." ∉ split Ch.slash p →
  ∃ tail, resolve env p = dirname env ++ tail
          ∧ (segs = [] ∨ tail = [] ∨ head tail = Some Ch.slash).
Proof.
  intros Hd Hs Hp Hdd. unfold resolve.
  set (x := if streq p (str "/") then str "fund_calculator.html" else p).
  assert (Hx : x ≠ []) by (unfold x; by destruct (streq p (str "/"))).
  assert (Hxdd : str ".." ∉ split Ch.slash x).
  { unfold x. destruct (streq p (str "/")); [|done].
    rewrite split_no_sep by done.
    apply not_elem_of_cons. split; [done|apply not_elem_of_nil]. }
  clearbody x. rewrite Hd. unfold path.join.
  rewrite !filter_cons_True by done. rewrite filter_nil, join_cons2. cbn [join].
  change ((Ch.slash :: join [Ch.slash] segs) ++ [Ch.slash] ++ x)
    with ((Ch.slash :: join [Ch.slash] segs) ++ Ch.slash :: x).
  unfold path.normalize. cbn [app].
  change (Ch.slash =? Ch.slash) with true. cbn [negb].
  change (Ch.slash :: join [Ch.slash] segs ++ Ch.slash :: x)
    with ((Ch.slash :: join [Ch.slash] segs) ++ Ch.slash :: x).
  assert (Hnorm : path.normalizeString
            ((Ch.slash :: join [Ch.slash] segs) ++ Ch.slash :: x) false =
          join [Ch.slash]
            (segs ++ filter (λ seg, seg ≠ [] ∧ seg ≠ str ".") (split Ch.slash x))).
  { unfold path.normalizeString. rewrite split_app, fold_left_app.
    rewrite (fold_step_root false segs Hs), fold_step_no_dotdot by done.
    by rewrite rev_app_distr, !rev_involutive. }
  rewrite Hnorm. clear Hnorm.
  set (ys := filter _ (split Ch.slash x)).
  set (b := bool_decide _). clearbody b ys.
  destruct segs as [|s segs'].
  - cbn [app join]. destruct (join [Ch.slash] ys) as [|c cs]; [exists []; auto|].
    destruct b; eexists; (split; [reflexivity|by left]).
  - rewrite join_app_segments by done.
    set (root := join [Ch.slash] (s :: segs')).
    set (more := match ys with [] => [] | _ => Ch.slash :: join [Ch.slash] ys end).
    assert (Hroot : root ≠ []).
    { unfold root. apply Forall_cons in Hs as [(Hne & _) _].
      destruct segs'; [done|]. rewrite join_cons2. by destruct s. }
    destruct (root ++ more) as [|c cs] eqn:E; [by destruct root|]. rewrite <- E.
    destruct b.
    + exists (more ++ [Ch.slash]). cbn [app]. split; [by rewrite app_assoc|].
      right. right. unfold more. by destruct ys.
    + exists more. split; [done|]. right. unfold more. destruct ys; auto.
Qed.

Lemma no_dotdot_stays_under_root_witness :
  ∃ tail, resolve (Sample.env []) (str "/docs/./a//b.css") = str "/srv/jojo" ++ tail
          ∧ ([str "srv"; str "jojo"] = [] ∨ tail = [] ∨ head tail = Some Ch.slash).
Proof.
  apply (no_dotdot_stays_under_root (Sample.env []) [str "srv"; str "jojo"]).
  - reflexivity.
  - repeat constructor; done.
  - done.
  - vm_compute. intros H. repeat (apply elem_of_cons in H as [H|H]; [done|]).
    by apply elem_of_nil in H.
Defined.

(** ** The log *)

Lemma quiet_logless {A} (m : M A) : quiet m → logless m.
Proof. intros H w. exists []. by rewrite H, app_nil_r. Qed.

Lemma logless_bind {A B} (m : M A) (f : A → M B) :
  logless m → (∀ a, logless (f a)) → logless (m ≫= f).
Proof.
  intros Hm Hf w. rewrite bind_run. destruct (Hm w) as (l1 & H1 & L1).
  destruct (m w) as [a w'|e w']; simpl in *; [|by exists l1].
  destruct (Hf a w') as (l2 & H2 & L2). exists (l1 ++ l2).
  rewrite H2, H1, <- app_assoc. split; [done|].
  unfold logs in *. by rewrite omap_app, L1, L2.
Qed.

Lemma logless_emit e : (∀ line, e ≠ ConsoleLog line) → logless (emit e).
Proof.
  intros He w. exists [e]. split; [done|].
  destruct e; try done. by destruct (He line).
Qed.

Lemma logless_onError message : logless (onError message).
Proof.
  unfold onError. apply logless_bind; intros; [by apply logless_emit|].
  apply quiet_logless.
  apply quiet_bind; intros; [apply quiet_setCORSHeaders|quiet_steps].
Qed.

Lemma logless_deliver events : ∀ piped, logless (deliver piped events).
Proof.
  induction events as [|ev events IH]; intros piped; [by apply quiet_logless|].
  destruct ev; simpl.
  - apply logless_bind; intros; [|apply IH]. apply quiet_logless.
    unfold onResponse.
    apply quiet_bind; intros; [apply quiet_setCORSHeaders|apply quiet_writeHead].
  - apply logless_bind; intros; [|apply IH].
    destruct piped; apply quiet_logless; [apply quiet_write|apply quiet_ret].
  - destruct piped; apply quiet_logless; [apply quiet_end|apply quiet_ret].
  - apply logless_onError.
Qed.

Lemma logless_serveStaticFile env filePath : logless (serveStaticFile env filePath).
Proof.
  unfold serveStaticFile. apply logless_bind; intros; [by apply logless_emit|].
  apply quiet_logless. destruct (fs_readFile _ _); [|apply quiet_notFound].
  apply quiet_bind; intros; [apply quiet_setCORSHeaders|quiet_steps].
Qed.

Lemma logless_serveStatic env filePath : logless (serveStatic env filePath).
Proof.
  unfold serveStatic. apply logless_bind; intros; [by apply logless_emit|].
  destruct (fs_access _ _); [apply logless_serveStaticFile|].
  destruct (negb _); [|apply quiet_logless, quiet_notFound].
  apply logless_bind; intros; [by apply logless_emit|].
  destruct (fs_access _ _); [apply logless_serveStaticFile|].
  apply quiet_logless, quiet_notFound.
Qed.

Lemma logless_proxyRequest env req targetUrl : logless (proxyRequest env req targetUrl).
Proof.
  unfold proxyRequest. apply logless_bind; intros;
    [by apply logless_emit|apply logless_deliver].
Qed.

(** X11.  Every request, whatever its method, path and fate, is written
    to the log exactly once, with its time, method and path, and before
    anything else is done for it. *)
Theorem request_logged_once env req :
  ∃ rest,
    trace (worldOf (serve env req)) =
    ConsoleLog (now env ++ str " - " ++ method req ++ str " " ++ pathname req) :: rest
    ∧ logs rest = [].
Proof.
  destruct (streq (method req) (str "OPTIONS")) eqn:Hm.
  { exists []. by rewrite (serve_options env req Hm). }
  destruct (proxyTarget req) as [targetUrl|] eqn:Ht.
  - rewrite (serve_proxy env req targetUrl Hm Ht).
    destruct (logless_proxyRequest env req targetUrl
                {| res := freshResponse;
                   trace := [ConsoleLog (now env ++ str " - " ++ method req
                                         ++ str " " ++ pathname req)] |})
      as (added & Ha & Hl).
    exists added. by rewrite Ha.
  - rewrite (serve_static env req Hm Ht).
    destruct (logless_serveStatic env (resolve env (pathname req))
                {| res := freshResponse;
                   trace := [ConsoleLog (now env ++ str " - " ++ method req
                                         ++ str " " ++ pathname req)] |})
      as (added & Ha & Hl).
    exists added. by rewrite Ha.
Qed.

(** ** Answers that are always given *)



(** ** Answers of the upstream *)







(** ** Exceptions *)







